(** * palanquin: PDF-to-LaTeX conversion and LaTeX-to-PDF compilation

    A shallow embedding of [pdf_to_latex.py] (structure classifier, LaTeX
    escaping, list-nesting emitter) and of [tex_to_pdf.py] (log parser,
    multi-pass compilation loop, scratch-directory lifecycle), followed by
    the properties established about them.

    Python [str] values are sequences of Unicode code points; they are
    modelled as lists of code points so that [len], indexing and the
    bullet glyphs behave as in the source. *)

From Stdlib Require Import ZArith NArith Lia List Bool Ascii String.
From stdpp Require Import base option list gmap.

Import ListNotations.
Local Open Scope Z_scope.
Local Open Scope list_scope.

(** ** Python strings *)

Module PyStr.

(** A character is a Unicode code point. *)
Abbreviation char := N (only parsing).
Abbreviation str := (list N) (only parsing).

(** ASCII literal: the code points of an ASCII string constant. *)
Definition lit (s : string) : str :=
  List.map N_of_ascii (list_ascii_of_string s).

Definition chr (a : ascii) : char := N_of_ascii a.

Arguments lit : simpl never.
Arguments chr : simpl never.

Definition NL : char := 10%N.
Definition BACKSLASH : char := 92%N.

Definition eqb (a b : str) : bool := bool_decide (a = b).

(** [len(s)] *)
Definition len (s : str) : Z := Z.of_nat (length s).

(** [s.startswith(p)] *)
Fixpoint startswith (s p : str) : bool :=
  match p, s with
  | [], _ => true
  | _ :: _, [] => false
  | c :: p', d :: s' => N.eqb c d && startswith s' p'
  end.

(** [s.endswith(p)] *)
Definition endswith (s p : str) : bool := startswith (rev s) (rev p).

(** [p in s] (substring test) *)
Fixpoint contains (s p : str) : bool :=
  startswith s p ||
  match s with
  | [] => false
  | _ :: s' => contains s' p
  end.

(** [s.replace(c, r)] for a one-character pattern [c]: occurrences of a
    single character never overlap, so every occurrence is replaced. *)
Fixpoint replace (c : char) (r : str) (s : str) : str :=
  match s with
  | [] => []
  | d :: s' => (if N.eqb d c then r else [d]) ++ replace c r s'
  end.

(** [s.split(sep)] for a one-character separator: always at least one
    field, [n] separators give [n+1] fields. *)
Fixpoint split (sep : char) (s : str) : list str :=
  match s with
  | [] => [[]]
  | d :: s' =>
      if N.eqb d sep then [] :: split sep s'
      else match split sep s' with
           | [] => [[d]]
           | f :: fs => (d :: f) :: fs
           end
  end.

(** [sep.join(parts)] *)
Fixpoint join (sep : str) (parts : list str) : str :=
  match parts with
  | [] => []
  | [p] => p
  | p :: ps => p ++ sep ++ join sep ps
  end.

(** [c.isspace()]: the code points CPython treats as whitespace
    (bidirectional type WS, B or S, or category Zs). The [\s] class of
    [re] on [str] patterns is the same set. *)
Definition isspace (c : char) : bool :=
  ((9 <=? c) && (c <=? 13) || (28 <=? c) && (c <=? 32)
   || (c =? 133) || (c =? 160) || (c =? 5760)
   || (8192 <=? c) && (c <=? 8202)
   || (c =? 8232) || (c =? 8233) || (c =? 8239) || (c =? 8287)
   || (c =? 12288))%N.

(** [s.lstrip()], [s.rstrip()], [s.strip()] *)
Fixpoint lstrip (s : str) : str :=
  match s with
  | c :: s' => if isspace c then lstrip s' else s
  | [] => []
  end.

Definition rstrip (s : str) : str := rev (lstrip (rev s)).

Definition strip (s : str) : str := rstrip (lstrip s).

(** [s.rfind(c)]: the highest index of [c], or [-1]. *)
Fixpoint rfind_from (c : char) (s : str) (i acc : Z) : Z :=
  match s with
  | [] => acc
  | d :: s' => rfind_from c s' (i + 1) (if N.eqb d c then i else acc)
  end.

Definition rfind (c : char) (s : str) : Z := rfind_from c s 0 (-1).

(** [range(start, stop)] *)
Definition range (start stop : Z) : list Z :=
  List.map (fun k => start + Z.of_nat k) (seq 0 (Z.to_nat (stop - start))).

(** [l[j]] for an index [0 <= j < len(l)] (the only way the program
    indexes a list). *)
Definition getitem (l : list str) (j : Z) : str := nth (Z.to_nat j) l [].

End PyStr.

Import PyStr.

(** ** Unicode case data

    [str.lower()] and [str.isupper()] consult the Unicode character
    database, which is not part of the repository: it is an interface the
    program is linked against. On ASCII-only text CPython lower-cases
    exactly the letters [A]..[Z]. *)

Definition is_ascii (c : char) : bool := (c <? 128)%N.

Definition ascii_lower_char (c : char) : char :=
  if ((65 <=? c) && (c <=? 90))%N then (c + 32)%N else c.

Class UnicodeData := {
  lower : str -> str;
  isupper : str -> bool;
  lower_ascii : forall s : str,
    forallb is_ascii s = true -> lower s = List.map ascii_lower_char s;
}.

(** The case data restricted to the ASCII letters (every other code point
    is caseless): enough to run the program on ASCII text and on the
    bullet glyphs. *)
Definition ascii_isupper (s : str) : bool :=
  forallb (fun c => negb ((97 <=? c) && (c <=? 122))%N) s
  && existsb (fun c => ((65 <=? c) && (c <=? 90))%N) s.

#[export] Instance ascii_case_data : UnicodeData := {|
  lower := List.map ascii_lower_char;
  isupper := ascii_isupper;
  lower_ascii := fun s _ => eq_refl;
|}.

(** ** pdf_to_latex.py: [PDFToLaTeXConverter] *)

Module PDFToLaTeXConverter.

(** [self.latex_special_chars]: a [dict] literal, iterated by [.items()]
    in insertion order. *)
Definition latex_special_chars : list (char * str) :=
  [ (chr "&", lit "\&");
    (chr "%", lit "\%");
    (chr "$", lit "\$");
    (chr "#", lit "\#");
    (chr "^", lit "\textasciicircum{}");
    (chr "_", lit "\_");
    (chr "{", lit "\{");
    (chr "}", lit "\}");
    (chr "~", lit "\textasciitilde{}");
    (BACKSLASH, lit "\textbackslash{}") ].

(** [escape_latex]: the loop rebinds [text] once per table entry. *)
Definition escape_latex (text : str) : str :=
  fold_left (fun text '(c, replacement) => replace c replacement text)
            latex_special_chars text.

Section Classifier.
Context `{UnicodeData}.

(** [is_title(line, all_lines)]; [all_lines] is received and not read. *)
Definition is_title (line : str) (all_lines : list str) : bool :=
  if (len line <? 50) && isupper line then true
  else if contains line (lit "App") || contains line (lit "System")
          || contains line (lit "Project") then true
  else false.

Definition section_keywords : list str :=
  [ lit "Summary"; lit "Features"; lit "Introduction"; lit "Overview";
    lit "Requirements"; lit "Implementation"; lit "Conclusion" ].

Definition is_section_heading (line : str) : bool :=
  existsb (fun keyword => contains (lower line) (lower keyword))
          section_keywords
  && (len line <? 50).

Definition is_subsection_heading (line : str) : bool :=
  if endswith line (lit ":") && (len line <? 80) then true else false.

(** The bullet glyphs: U+25CF, U+2022, U+25CB. *)
Definition BLACK_CIRCLE : char := 9679%N.
Definition BULLET : char := 8226%N.
Definition WHITE_CIRCLE : char := 9675%N.

Definition is_primary_bullet (line : str) : bool :=
  startswith line [BLACK_CIRCLE] || startswith line [BULLET]
  || startswith line (lit "- ").

Definition is_secondary_bullet (line : str) : bool :=
  startswith line [WHITE_CIRCLE]
  || startswith line (lit "  " ++ [WHITE_CIRCLE])
  || startswith line (lit "    " ++ [WHITE_CIRCLE]).

(** [clean_bullet_text]: [re.sub(r'^[\s]*[●•○\-]\s*', '', line).strip()].
    The pattern is anchored at the start, so it matches at most once:
    a run of whitespace, one glyph, a run of whitespace. Without a
    match the line is left as it is. *)
Definition is_bullet_glyph (c : char) : bool :=
  (N.eqb c BLACK_CIRCLE || N.eqb c BULLET || N.eqb c WHITE_CIRCLE
   || N.eqb c (chr "-")).

Definition clean_bullet_text (line : str) : str :=
  let cleaned :=
    match lstrip line with
    | c :: rest => if is_bullet_glyph c then lstrip rest else line
    | [] => line
    end in
  strip cleaned.

(** One iteration of the classification chain of [identify_structure],
    for a line that is already stripped and not empty: the tuple that is
    appended to [structured_content]. *)
Definition classify (line : str) (lines : list str) : str * str :=
  if is_title line lines then (lit "title", line)
  else if is_section_heading line then (lit "section", line)
  else if is_subsection_heading line then (lit "subsection", line)
  else if is_primary_bullet line then (lit "bullet1", clean_bullet_text line)
  else if is_secondary_bullet line then (lit "bullet2", clean_bullet_text line)
  else (lit "paragraph", line).

(** [identify_structure]: the [for] loop over [lines], with
    [structured_content] as its accumulator; [continue] on an empty
    stripped line. *)
Definition identify_structure (text : str) : list (str * str) :=
  let lines := split NL text in
  fold_left
    (fun structured_content line =>
       let line := strip line in
       if bool_decide (line = []) then structured_content
       else structured_content ++ [classify line lines])
    lines [].

End Classifier.

(** The local variables of [convert_to_latex] that the loop updates. *)
Record emitter := Emitter {
  latex_content : list str;
  in_itemize : bool;
  in_subitemize : bool;
}.

(** [latex_content.append(line)] *)
Definition append (line : str) (e : emitter) : emitter :=
  Emitter (latex_content e ++ [line]) (in_itemize e) (in_subitemize e).

Definition BEGIN_ITEMIZE : str := lit "\begin{itemize}".
Definition END_ITEMIZE : str := lit "\end{itemize}".

(** [if in_subitemize: append(end); in_subitemize = False] *)
Definition close_subitemize (e : emitter) : emitter :=
  if in_subitemize e
  then Emitter (latex_content e ++ [END_ITEMIZE]) (in_itemize e) false
  else e.

(** [if in_itemize: append(end); in_itemize = False] *)
Definition close_itemize (e : emitter) : emitter :=
  if in_itemize e
  then Emitter (latex_content e ++ [END_ITEMIZE]) false (in_subitemize e)
  else e.

(** [if not in_itemize: append(begin); in_itemize = True] *)
Definition open_itemize (e : emitter) : emitter :=
  if negb (in_itemize e)
  then Emitter (latex_content e ++ [BEGIN_ITEMIZE]) true (in_subitemize e)
  else e.

(** [if not in_subitemize: append(begin); in_subitemize = True] *)
Definition open_subitemize (e : emitter) : emitter :=
  if negb (in_subitemize e)
  then Emitter (latex_content e ++ [BEGIN_ITEMIZE]) (in_itemize e) true
  else e.

Definition header : list str :=
  [ lit "\documentclass[11pt,a4paper]{article}";
    lit "\usepackage[utf8]{inputenc}";
    lit "\usepackage[T1]{fontenc}";
    lit "\usepackage{geometry}";
    lit "\usepackage{enumitem}";
    lit "\usepackage{parskip}";
    lit "\geometry{margin=1in}";
    [];
    lit "\begin{document}";
    [] ].

Definition footer : list str := [ []; lit "\end{document}" ].

(** The body of the [for content_type, content in structured_content]
    loop. A [content_type] that is none of the six tags matches no
    branch and appends nothing. *)
Definition emit (e : emitter) (item : str * str) : emitter :=
  let '(content_type, content) := item in
  let escaped_content := escape_latex content in
  if eqb content_type (lit "title") then
    append [] (append (lit "\maketitle")
      (append (lit "\title{" ++ escaped_content ++ lit "}") e))
  else if eqb content_type (lit "section") then
    append [] (append (lit "\section{" ++ escaped_content ++ lit "}")
      (close_itemize (close_subitemize e)))
  else if eqb content_type (lit "subsection") then
    append [] (append (lit "\subsection{" ++ escaped_content ++ lit "}")
      (close_itemize (close_subitemize e)))
  else if eqb content_type (lit "bullet1") then
    append (lit "\item " ++ escaped_content)
      (open_itemize (close_subitemize e))
  else if eqb content_type (lit "bullet2") then
    append (lit "\item " ++ escaped_content) (open_subitemize e)
  else if eqb content_type (lit "paragraph") then
    append [] (append escaped_content (close_itemize (close_subitemize e)))
  else e.

(** The state when the loop ends. *)
Definition emit_all (structured_content : list (str * str)) : emitter :=
  fold_left emit structured_content (Emitter header false false).

(** After the loop: the remaining lists are closed without resetting the
    flags, then the footer is appended. *)
Definition finish (e : emitter) : list str :=
  let l1 := if in_subitemize e then latex_content e ++ [END_ITEMIZE]
            else latex_content e in
  let l2 := if in_itemize e then l1 ++ [END_ITEMIZE] else l1 in
  l2 ++ footer.

(** The final value of [latex_content], before it is joined. *)
Definition convert_to_latex_lines (structured_content : list (str * str))
  : list str :=
  finish (emit_all structured_content).

Definition convert_to_latex (structured_content : list (str * str)) : str :=
  join [NL] (convert_to_latex_lines structured_content).

End PDFToLaTeXConverter.

(** ** Paths and files

    A [pathlib.Path] is kept as its parent directory and its final
    component. *)

Abbreviation Path := (str * str)%type (only parsing).

Definition parent (p : Path) : str := fst p.
Definition name (p : Path) : str := snd p.

(** [Path.suffix]: the last dot of the name and what follows it, unless
    that dot is the first or the last character of the name. *)
Definition suffix (p : Path) : str :=
  let i := rfind (chr ".") (name p) in
  if (0 <? i) && (i <? len (name p) - 1)
  then drop (Z.to_nat i) (name p)
  else [].

(** [Path.with_suffix(s)] for a well-formed suffix [s]; [None] stands for
    the [ValueError] that pathlib raises on an empty name. *)
Definition with_suffix (p : Path) (s : str) : option Path :=
  if bool_decide (name p = []) then None
  else Some (parent p,
             take (length (name p) - length (suffix p))%nat (name p) ++ s).

(** [dir / name] *)
Definition path_join (p : Path) (n : str) : Path :=
  (parent p ++ lit "/" ++ name p, n).

Inductive node :=
| File (content : str)
| Dir.

(** The part of the machine the compiler driver touches: the file tree,
    and the directories made by [tempfile], each with the files it holds
    (file name to decoded text). *)
Record world := World {
  fs : gmap (str * str) node;
  temp_dirs : gmap positive (gmap str str);
}.

Inductive exn :=
| FileNotFoundError (msg : str)
| ValueError (msg : str)
| NameError (msg : str)
| Exception (msg : str).

(** ** tex_to_pdf.py: [LaTeXToPDFConverter] *)

Module LaTeXToPDFConverter.

Record t := Converter {
  engine : str;
  cleanup : bool;
  verbose : bool;
}.

Definition is_error_line (line : str) : bool :=
  startswith line (lit "!") || contains line (lit "Error:").

Definition is_warning_line (line : str) : bool :=
  contains line (lit "Warning:") || startswith line (lit "LaTeX Warning:").

(** The inner loop of [_parse_latex_errors]: the lines [start..end-1]
    around line [i]. *)
Definition error_context (lines : list str) (i : Z) : list str :=
  let start := Z.max 0 (i - 2) in
  let end_ := Z.min (Z.of_nat (length lines)) (i + 3) in
  List.map (getitem lines) (range start end_).

(** [for i, line in enumerate(lines)], over the lines that remain, with
    the two result lists as accumulators. *)
Fixpoint parse_lines (lines : list str) (i : Z) (rest : list str)
    (errors warnings : list str) : list str * list str :=
  match rest with
  | [] => (errors, warnings)
  | line :: rest' =>
      if is_error_line line then
        parse_lines lines (i + 1) rest'
          (errors ++ [join [NL] (error_context lines i)]) warnings
      else if is_warning_line line then
        parse_lines lines (i + 1) rest' errors (warnings ++ [strip line])
      else
        parse_lines lines (i + 1) rest' errors warnings
  end.

Definition _parse_latex_errors (log_content : str) : list str * list str :=
  let lines := split NL log_content in
  parse_lines lines 0 lines [] [].

Definition indicators : list str :=
  [ lit "Rerun to get cross-references right";
    lit "Label(s) may have changed";
    lit "Rerun LaTeX";
    lit "Table widths have changed" ].

Definition _needs_multiple_passes (log_content : str) : bool :=
  existsb (fun indicator => contains log_content indicator) indicators.

(** What [subprocess.run] can do: time out, fail to start, or complete
    with an exit code and the captured standard error. In each case the
    output directory is left in some state. *)
Inductive run_result :=
| TimeoutExpired (d : gmap str str)
| RunError (e : str) (d : gmap str str)
| CompletedProcess (returncode : Z) (stderr : str) (d : gmap str str).

Definition extensions_to_copy : list str :=
  [ lit ".bib"; lit ".cls"; lit ".sty"; lit ".bst"; lit ".png";
    lit ".jpg"; lit ".jpeg"; lit ".pdf"; lit ".eps"; lit ".svg" ].

(** The text of the exception raised on a nonzero exit code. *)
Definition error_msg (errors : list str) (stderr log_content : str) : str :=
  let m0 := lit "LaTeX compilation failed!" ++ [NL; NL] in
  let m1 := if bool_decide (errors = []) then m0
            else m0 ++ lit "ERRORS:" ++ [NL] ++ join [NL; NL] errors
                    ++ [NL; NL] in
  let m2 := if bool_decide (stderr = []) then m1
            else m1 ++ lit "STDERR:" ++ [NL] ++ stderr ++ [NL; NL] in
  if bool_decide (log_content = []) then m2
  else m2 ++ lit "For full details, check the log output above.".

(** The variables the pass loop updates: the temporary directory's
    files, [log_content] ([None] while the name is unbound), and a count
    of the engine processes started so far (kept for the statements
    about the number of passes; the program has no such variable). *)
Record loop_state := LoopState {
  dir : gmap str str;
  log_content : option str;
  passes_run : nat;
}.

Section Driver.
Context `{UnicodeData}.

(** The external engine: its behaviour on a given pass and directory is
    not the program's to decide. *)
Variable subprocess_run : str -> Z -> gmap str str -> run_result.

(** Whether [shutil.copy2] can write the final PDF at a path. *)
Variable can_write : Path -> bool.

Definition _run_latex_command (self : t) (pass_number : Z)
    (d : gmap str str) : gmap str str * (exn + Z * str) :=
  match subprocess_run (engine self) pass_number d with
  | TimeoutExpired d' =>
      (d', inl (Exception (lit "LaTeX compilation timed out (5 minutes)")))
  | RunError e d' =>
      (d', inl (Exception (lit "Failed to run " ++ engine self ++ lit ": "
                           ++ e)))
  | CompletedProcess returncode stderr d' =>
      (d', inr (returncode, stderr))
  end.

(** [for pass_num in range(1, max_passes + 1)], over the pass numbers
    that remain. The result is the state when the loop is left and the
    exception, if one was raised. *)
Fixpoint pass_loop (self : t) (log_file : str) (max_passes : Z)
    (passes : list Z) (st : loop_state) : loop_state * option exn :=
  match passes with
  | [] => (st, None)
  | pass_num :: rest =>
      match _run_latex_command self pass_num (dir st) with
      | (d', inl e) =>
          (LoopState d' (log_content st) (S (passes_run st)), Some e)
      | (d', inr (returncode, stderr)) =>
          let log_content :=
            match d' !! log_file with Some text => text | None => [] end in
          let st' := LoopState d' (Some log_content) (S (passes_run st)) in
          if negb (returncode =? 0) then
            let '(errors, warnings) := _parse_latex_errors log_content in
            (st', Some (Exception (error_msg errors stderr log_content)))
          else if (pass_num <? max_passes)
                  && _needs_multiple_passes log_content
          then pass_loop self log_file max_passes rest st'
          else (st', None)
      end
  end.

(** [_copy_additional_files]: every regular file of the source directory
    whose lower-cased suffix is in the list is copied under its own
    name. Names in one directory are distinct, so the order of
    [iterdir()] does not matter. *)
Definition _copy_additional_files (files : gmap (str * str) node)
    (source_dir : str) (dest_dir : gmap str str) : gmap str str :=
  map_fold
    (fun (file_path : str * str) (n : node) (dest : gmap str str) =>
       match n with
       | File content =>
           if bool_decide (parent file_path = source_dir)
              && existsb (eqb (lower (suffix file_path))) extensions_to_copy
           then <[name file_path := content]> dest
           else dest
       | Dir => dest
       end)
    dest_dir files.

(** The body of the [with tempfile.TemporaryDirectory() as temp_dir]
    block, for the directory [tmp] it was given. *)
Definition compile_in (self : t) (tex_path output_pdf : Path)
    (max_passes : Z) (tmp : positive) (w : world)
    : world * (exn + Path) :=
  match fs w !! tex_path with
  | Some (File tex) =>
      let d0 := <[name tex_path := tex]> (∅ : gmap str str) in
      let d1 := _copy_additional_files (fs w) (parent tex_path) d0 in
      match with_suffix tex_path (lit ".log"),
            with_suffix tex_path (lit ".pdf") with
      | Some log_path, Some pdf_path =>
          let log_file := name log_path in
          let pdf_file := name pdf_path in
          let '(st, raised) :=
            pass_loop self log_file max_passes (range 1 (max_passes + 1))
                      (LoopState d1 None 0) in
          let w1 := World (fs w) (<[tmp := dir st]> (temp_dirs w)) in
          match raised with
          | Some e => (w1, inl e)
          | None =>
              match dir st !! pdf_file with
              | None =>
                  (w1, inl (Exception (lit
                     "PDF file was not created, but no obvious errors were found")))
              | Some pdf =>
                  let dst :=
                    match fs w !! output_pdf with
                    | Some Dir => path_join output_pdf pdf_file
                    | _ => output_pdf
                    end in
                  if can_write dst then
                    let w2 := World (<[dst := File pdf]> (fs w)) (temp_dirs w1) in
                    if verbose self then
                      match log_content st with
                      | None => (w2, inl (NameError (lit "log_content")))
                      | Some _ => (w2, inr output_pdf)
                      end
                    else (w2, inr output_pdf)
                  else (w1, inl (Exception (lit "copy2")))
              end
          end
      | _, _ => (w, inl (ValueError (lit "empty name")))
      end
  | _ => (w, inl (Exception (lit "copy2")))
  end.

(** [with tempfile.TemporaryDirectory() as temp_dir: body]: a directory
    with a name not in use is made, the body runs, and the directory is
    removed when the block is left, by a return or by an exception. *)
Definition with_TemporaryDirectory {A : Type}
    (body : positive -> world -> world * A) (w : world) : world * A :=
  let tmp := fresh (dom (temp_dirs w)) in
  let w0 := World (fs w) (<[tmp := ∅]> (temp_dirs w)) in
  let '(w1, r) := body tmp w0 in
  (World (fs w1) (delete tmp (temp_dirs w1)), r).

Definition convert_to_pdf (self : t) (tex_file : Path)
    (output_pdf : option Path) (max_passes : Z) (w : world)
    : world * (exn + Path) :=
  let tex_path := tex_file in
  if negb (bool_decide (is_Some (fs w !! tex_path))) then
    (w, inl (FileNotFoundError (lit "LaTeX file not found")))
  else if negb (eqb (lower (suffix tex_path)) (lit ".tex")) then
    (w, inl (ValueError (lit "Input file must have .tex extension")))
  else
    match (match output_pdf with
           | None => with_suffix tex_path (lit ".pdf")
           | Some p => Some p
           end) with
    | None => (w, inl (ValueError (lit "empty name")))
    | Some output_pdf =>
        with_TemporaryDirectory
          (compile_in self tex_path output_pdf max_passes) w
    end.

End Driver.

End LaTeXToPDFConverter.

Import PDFToLaTeXConverter.
Import LaTeXToPDFConverter.

(** ** pdf_to_latex.py: text extraction and the whole conversion *)

Section Pipeline.
Context `{UnicodeData}.

(** What [pdfplumber] gives for a path: the text of each page ([None]
    when a page has none), or the text of the exception it raised while
    the file was opened or read. *)
Variable pdfplumber_pages : Path -> str + list (option str).

(** Whether a file can be opened for writing at a path. *)
Variable can_open_w : Path -> bool.

(** [extract_text_from_pdf]: the text of the pages that have some, each
    followed by two newlines, stripped at the end; any exception is
    raised again as [Exception("Error reading PDF: ...")]. *)
Definition extract_text_from_pdf (pdf_path : Path) : exn + str :=
  match pdfplumber_pages pdf_path with
  | inl e => inl (Exception (lit "Error reading PDF: " ++ e))
  | inr pages =>
      let text :=
        fold_left
          (fun text page_text =>
             match page_text with
             | Some (c :: t) => text ++ (c :: t) ++ [NL; NL]
             | _ => text
             end)
          pages [] in
      inr (strip text)
  end.


End Pipeline.

(** ** tex_to_pdf.py: the choice of the engine *)

Definition supported_engines : list str :=
  [ lit "pdflatex"; lit "xelatex"; lit "lualatex" ].

(** [_check_latex_installation], with [shutil.which] as [which]: the
    converter with the engine it will use, or the exception raised when
    no engine is found. *)
Definition _check_latex_installation (which : str -> bool)
    (self : LaTeXToPDFConverter.t) : exn + LaTeXToPDFConverter.t :=
  if negb (which (engine self)) then
    let available_engines := List.filter which supported_engines in
    match available_engines with
    | eng :: _ => inr (Converter eng (cleanup self) (verbose self))
    | [] =>
        inl (Exception (lit
"No LaTeX engine found. Please install a LaTeX distribution.
For Ubuntu/Debian: sudo apt-get install texlive-full
For macOS: brew install --cask mactex
For Windows: Download MiKTeX or TeX Live"))
    end
  else inr self.

(** [LaTeXToPDFConverter.__init__] *)
Definition __init__ (which : str -> bool) (engine : str)
    (cleanup verbose : bool) : exn + LaTeXToPDFConverter.t :=
  _check_latex_installation which (Converter engine cleanup verbose).

(** ** Reference notions used in the statements *)

(** Escaping as a character-by-character table lookup: every special
    character of the input is replaced by its table entry, once, and the
    replacement text is not looked at again. *)
Definition escape_by_table (text : str) : str :=
  flat_map
    (fun c =>
       match List.find (fun e => N.eqb (fst e) c) latex_special_chars with
       | Some (_, replacement) => replacement
       | None => [c]
       end)
    text.

(** The stripped input lines that are not empty, in input order. *)
Definition nonempty_stripped_lines (text : str) : list str :=
  List.filter (fun line => negb (bool_decide (line = [])))
              (List.map strip (split NL text)).

(** The positions, counted from [i], of the lines of [rest] that the log
    parser treats as fatal. *)
Fixpoint error_indices (i : nat) (rest : list str) : list nat :=
  match rest with
  | [] => []
  | line :: rest' =>
      if is_error_line line then i :: error_indices (S i) rest'
      else error_indices (S i) rest'
  end.

(** Reading a document line by line and counting the [itemize]
    environments that are open: [None] when a list is closed that was
    not open, otherwise the number still open after the last line. *)
Fixpoint list_depth (lines : list str) (depth : nat) : option nat :=
  match lines with
  | [] => Some depth
  | l :: rest =>
      if eqb l BEGIN_ITEMIZE then list_depth rest (S depth)
      else if eqb l END_ITEMIZE then
        match depth with
        | O => None
        | S d => list_depth rest d
        end
      else list_depth rest depth
  end.

(** A line of text that neither opens nor closes a list. *)
Definition neutral (l : str) : bool :=
  negb (eqb l BEGIN_ITEMIZE) && negb (eqb l END_ITEMIZE).

(** A backslash is always followed by a character, and that character
    is not [b] (98), not [e] (101) and not a newline. *)
Fixpoint bs_ok (s : str) : bool :=
  match s with
  | [] => true
  | c :: s' =>
      (if N.eqb c BACKSLASH then
         match s' with
         | d :: _ => negb (N.eqb d 98) && negb (N.eqb d 101)
                     && negb (N.eqb d NL)
         | [] => false
         end
       else true)
      && bs_ok s'
  end.

(** The number of lists the emitter holds open. *)
Definition open_count (e : emitter) : nat :=
  Nat.b2n (in_itemize e) + Nat.b2n (in_subitemize e).

(** The lines of the text that a list of appended strings stands for
    once joined by newlines: a string that holds newlines gives several
    lines. *)
Definition text_lines (parts : list str) : list str :=
  flat_map (split NL) parts.

(** The flags of the emitter agree with the text written so far. *)
Definition emitter_ok (e : emitter) : Prop :=
  list_depth (text_lines (latex_content e)) 0 = Some (open_count e).

(** The [end] lines appended after the loop. *)
Definition closing (e : emitter) : list str :=
  (if in_subitemize e then [END_ITEMIZE] else [])
  ++ (if in_itemize e then [END_ITEMIZE] else []).

(** The characters that have an entry in the escaping table. *)
Definition is_special (c : char) : bool :=
  existsb (fun e => N.eqb (fst e) c) latex_special_chars.

(** Every backslash of [s] is followed by the text [tail]. *)
Fixpoint bs_followed (tail : str) (s : str) : bool :=
  match s with
  | [] => true
  | c :: s' =>
      (if N.eqb c BACKSLASH then startswith s' tail else true)
      && bs_followed tail s'
  end.

(** The number of occurrences of a character. *)
Definition count_char (c : char) (s : str) : nat :=
  length (List.filter (N.eqb c) s).

(** The six tags of a content block. *)
Definition content_types : list str :=
  [ lit "title"; lit "section"; lit "subsection"; lit "bullet1";
    lit "bullet2"; lit "paragraph" ].

(** A line that is the start of a list item. *)
Definition is_item (l : str) : bool := startswith l (lit "\item ").

(** Reading a document line by line: every item line stands where at
    least one list is open. *)
Fixpoint items_inside (lines : list str) (depth : nat) : bool :=
  match lines with
  | [] => true
  | l :: rest =>
      if eqb l BEGIN_ITEMIZE then items_inside rest (S depth)
      else if eqb l END_ITEMIZE then items_inside rest (Nat.pred depth)
      else (negb (is_item l) || (0 <? depth)%nat) && items_inside rest depth
  end.

(** Every backslash of [s] is followed by a character that passes
    [ok]. *)
Fixpoint bs_next (ok : char -> bool) (s : str) : bool :=
  match s with
  | [] => true
  | c :: s' =>
      (if N.eqb c BACKSLASH then
         match s' with
         | d :: _ => ok d
         | [] => false
         end
       else true)
      && bs_next ok s'
  end.

(** Not [b] (98), not [e] (101), not [i] (105), not a newline. *)
Definition not_bei (d : char) : bool :=
  negb (N.eqb d 98) && negb (N.eqb d 101) && negb (N.eqb d 105)
  && negb (N.eqb d NL).

(** In the text written so far every item stands inside a list. *)
Definition items_ok (e : emitter) : Prop :=
  items_inside (text_lines (latex_content e)) 0 = true.

(** The text of the pages as [extract_text_from_pdf] builds it, before
    it is stripped. *)
Definition pages_text (pages : list (option str)) : str :=
  fold_left
    (fun text page_text =>
       match page_text with
       | Some (c :: t) => text ++ (c :: t) ++ [NL; NL]
       | _ => text
       end)
    pages [].

(** ** Sample runs *)

Definition paper_tex : Path := (lit "/home/u/doc", lit "paper.TEX").

Definition sample_world : world :=
  World (<[paper_tex := File (lit "\documentclass{article}")]>
           (<[(lit "/home/u/doc", lit "refs.bib") := File (lit "@book{}")]> ∅))
        ∅.

Definition rerun_log : str :=
  lit "LaTeX Warning: Label(s) may have changed. Rerun to get cross-references right.".

Definition clean_log : str := lit "Output written on paper.pdf (1 page).".

Definition failing_log : str :=
  lit "(./paper.tex
LaTeX2e
! Undefined control sequence.
l.5 \foo
No pages of output.".

(** An engine that asks for a second pass and then is satisfied. *)
Definition engine_two_passes (engine : str) (pass_number : Z)
    (d : gmap str str) : run_result :=
  if pass_number =? 1 then
    CompletedProcess 0 [] (<[lit "paper.log" := rerun_log]>
                             (<[lit "paper.pdf" := lit "%PDF-1"]> d))
  else
    CompletedProcess 0 [] (<[lit "paper.log" := clean_log]>
                             (<[lit "paper.pdf" := lit "%PDF-2"]> d)).

(** An engine that stops on an undefined control sequence. *)
Definition engine_failing (engine : str) (pass_number : Z)
    (d : gmap str str) : run_result :=
  CompletedProcess 1 (lit "halted") (<[lit "paper.log" := failing_log]> d).

(** An engine that does not finish in time. *)
Definition engine_hanging (engine : str) (pass_number : Z)
    (d : gmap str str) : run_result :=
  TimeoutExpired d.

(** An engine that exits with code 0 and writes no PDF. *)
Definition engine_silent (engine : str) (pass_number : Z)
    (d : gmap str str) : run_result :=
  CompletedProcess 0 [] (<[lit "paper.log" := clean_log]> d).

Definition pdflatex : LaTeXToPDFConverter.t :=
  Converter (lit "pdflatex") true false.

(** A log in which the words of a fatal message stand in the middle of
    a line that is not fatal. *)
Definition midline_log : str := lit "x! Undefined control sequence".

Definition engine_midline (engine : str) (pass_number : Z)
    (d : gmap str str) : run_result :=
  CompletedProcess 1 [] (<[lit "paper.log" := midline_log]> d).

(** A world with an old PDF beside the source, and an engine that exits
    with code 0 and writes nothing. *)
Definition stale_world : world :=
  World (<[paper_tex := File (lit "\documentclass{article}")]>
           (<[(lit "/home/u/doc", lit "paper.pdf") := File (lit "%PDF-old")]>
              ∅))
        ∅.

Definition engine_idle (engine : str) (pass_number : Z)
    (d : gmap str str) : run_result :=
  CompletedProcess 0 [] d.

(** ** Classifier *)

Section ClassifierFacts.
Context `{UnicodeData}.

Lemma fold_left_append_filter {A B : Type} (skip : A -> bool) (f : A -> B)
    (l : list A) (acc : list B) :
  fold_left (fun acc x => if skip x then acc else acc ++ [f x]) l acc
  = acc ++ List.map f (List.filter (fun x => negb (skip x)) l).
Proof.
  revert acc. induction l as [|x l IH]; intros acc; simpl.
  - by rewrite app_nil_r.
  - destruct (skip x); simpl; rewrite IH; [done|].
    by rewrite <- app_assoc.
Qed.

Lemma identify_structure_map (text : str) :
  identify_structure text
  = List.map (fun line => classify line (split NL text))
             (nonempty_stripped_lines text).
Proof.
  unfold identify_structure, nonempty_stripped_lines.
  rewrite (fold_left_append_filter
             (fun l => bool_decide (strip l = []))
             (fun l => classify (strip l) (split NL text))).
  simpl. generalize (split NL text) at 1 3 as ctx. intros ctx.
  induction (split NL text) as [|l ls IH]; simpl; [done|].
  destruct (bool_decide (strip l = [])); simpl; by rewrite IH.
Qed.

Lemma classify_context (line : str) (lines1 lines2 : list str) :
  classify line lines1 = classify line lines2.
Proof. reflexivity. Qed.

Lemma split_not_nil (sep : char) (s : str) : split sep s <> [].
Proof.
  destruct s as [|c s]; simpl; [done|].
  destruct (N.eqb c sep); [done|]. by destruct (split sep s).
Qed.

Lemma split_cons_sep (sep : char) (a b : str) :
  split sep (a ++ sep :: b) = split sep a ++ split sep b.
Proof.
  induction a as [|c a IH]; simpl.
  - by rewrite N.eqb_refl.
  - destruct (N.eqb c sep) eqn:E; [by rewrite IH|].
    rewrite IH. pose proof (split_not_nil sep a) as Hne.
    by destruct (split sep a).
Qed.

Lemma nonempty_stripped_lines_app (a b : str) :
  nonempty_stripped_lines (a ++ NL :: b)
  = nonempty_stripped_lines a ++ nonempty_stripped_lines b.
Proof.
  unfold nonempty_stripped_lines.
  by rewrite split_cons_sep, List.map_app, List.filter_app.
Qed.

Lemma identify_structure_app (a b : str) :
  identify_structure (a ++ NL :: b)
  = identify_structure a ++ identify_structure b.
Proof.
  rewrite !identify_structure_map, nonempty_stripped_lines_app, List.map_app.
  f_equal.
Qed.

(** C6: the classifier yields one block per non-empty stripped line of
    the input, in input order; in particular the number of blocks is the
    number of non-empty stripped lines. *)
Theorem identify_structure_one_block_per_line (text : str) :
  length (identify_structure text) = length (nonempty_stripped_lines text)
  /\ identify_structure text
     = List.map (fun line => classify line (split NL text))
                (nonempty_stripped_lines text).
Proof.
  rewrite identify_structure_map. split; [by rewrite List.length_map|done].
Qed.

(** C7: classification is line-local. The all-lines argument of the title
    rule has no effect (same result for any two contexts), neither has it
    on the block built for a line, and a line classified between other
    lines gives the blocks it gives when classified alone. *)
Theorem classification_line_local
    (line : str) (all_lines1 all_lines2 : list str) (before after : str) :
  is_title line all_lines1 = is_title line all_lines2
  /\ classify line all_lines1 = classify line all_lines2
  /\ identify_structure (before ++ NL :: line ++ NL :: after)
     = identify_structure before ++ identify_structure line
       ++ identify_structure after.
Proof.
  split; [reflexivity|]. split; [apply classify_context|].
  by rewrite !identify_structure_app.
Qed.

End ClassifierFacts.

(** ** Escaping *)

(** C1, evaluated on the code: the table is applied entry by entry and
    the backslash entry comes last, so the backslashes written by the
    earlier entries are replaced again. On ["100% & $5"] the result holds
    none of [\%], [\&], [\$], and it differs from the character-wise
    table substitution. *)
Theorem escape_latex_reescapes_backslashes :
  escape_latex (lit "100% & $5")
  = lit "100\textbackslash{}% \textbackslash{}& \textbackslash{}$5"
  /\ contains (escape_latex (lit "100% & $5")) (lit "\%") = false
  /\ contains (escape_latex (lit "100% & $5")) (lit "\&") = false
  /\ contains (escape_latex (lit "100% & $5")) (lit "\$") = false
  /\ escape_by_table (lit "100% & $5") = lit "100\% \& \$5"
  /\ escape_latex (lit "100% & $5") <> escape_by_table (lit "100% & $5").
Proof. repeat split; try by vm_compute. Qed.

(** ** Log parser *)

Section LogParserFacts.

Lemma take_add_drop {A : Type} (a b : nat) (l : list A) :
  take (a + b) l = take a l ++ take b (drop a l).
Proof.
  revert l. induction a as [|a IH]; intros l; simpl; [done|].
  destruct l as [|x l]; simpl; [by rewrite take_nil|]. by rewrite IH.
Qed.

Lemma map_nth_seq (l : list str) (a n : nat) :
  (a + n <= length l)%nat ->
  List.map (fun k => nth k l []) (seq a n) = take n (drop a l).
Proof.
  revert a. induction n as [|n IH]; intros a Hle; simpl; [done|].
  destruct (lookup_lt_is_Some_2 l a) as [x Hx]; [lia|].
  rewrite (drop_S l x a Hx). simpl. rewrite IH by lia.
  f_equal. by apply nth_lookup_Some with (d := []) in Hx.
Qed.

(** The slice taken around line [i]: [lines[max(0,i-2) : min(n,i+3)]]. *)
Lemma error_context_slice (lines : list str) (i : nat) :
  (i < length lines)%nat ->
  error_context lines (Z.of_nat i)
  = take (Nat.min (length lines) (i + 3) - (i - 2)) (drop (i - 2) lines).
Proof.
  intros Hi. unfold error_context, range.
  rewrite List.map_map.
  replace (Z.to_nat (Z.min (Z.of_nat (length lines)) (Z.of_nat i + 3)
                     - Z.max 0 (Z.of_nat i - 2)))
    with (Nat.min (length lines) (i + 3) - (i - 2))%nat by lia.
  rewrite <- map_nth_seq by lia.
  pose proof (fmap_add_seq (i - 2) 0
                (Nat.min (length lines) (i + 3) - (i - 2))) as Hseq.
  rewrite Nat.add_0_r in Hseq. rewrite <- Hseq.
  change (@fmap list _ nat nat) with (@List.map nat nat).
  rewrite List.map_map.
  apply List.map_ext. intros k. unfold getitem. f_equal. lia.
Qed.

Lemma error_context_shape (lines : list str) (i : nat) (line : str) :
  lines !! i = Some line ->
  error_context lines (Z.of_nat i)
  = take (Nat.min 2 i) (drop (i - 2) lines) ++ [line]
    ++ take 2 (drop (S i) lines).
Proof.
  intros Hi. pose proof (lookup_lt_Some _ _ _ Hi) as Hlt.
  rewrite error_context_slice by done.
  replace (Nat.min (length lines) (i + 3) - (i - 2))%nat
    with (Nat.min 2 i + S (Nat.min 2 (length lines - S i)))%nat by lia.
  rewrite take_add_drop. f_equal.
  rewrite drop_drop.
  replace (i - 2 + Nat.min 2 i)%nat with i by lia.
  rewrite (drop_S lines line i Hi).
  rewrite firstn_cons. change ([line] ++ ?l) with (line :: l). f_equal.
  destruct (decide (2 <= length lines - S i)%nat) as [Hge|Hlt2].
  - by rewrite Nat.min_l by lia.
  - rewrite Nat.min_r by lia.
    rewrite !take_ge; [done| |]; rewrite length_drop; lia.
Qed.

Lemma parse_lines_spec (lines : list str) (i : nat) (rest : list str)
    (errors warnings : list str) :
  parse_lines lines (Z.of_nat i) rest errors warnings
  = (errors ++ List.map (fun k => join [NL] (error_context lines (Z.of_nat k)))
                        (error_indices i rest),
     warnings ++ List.map strip
                   (List.filter (fun l => negb (is_error_line l)
                                          && is_warning_line l) rest)).
Proof.
  revert i errors warnings.
  induction rest as [|line rest IH]; intros i errors warnings; simpl.
  - by rewrite !app_nil_r.
  - replace (Z.of_nat i + 1) with (Z.of_nat (S i)) by lia.
    destruct (is_error_line line); simpl.
    + rewrite IH. by rewrite <- app_assoc.
    + destruct (is_warning_line line); simpl; rewrite IH; [|done].
      by rewrite <- app_assoc.
Qed.

Lemma parse_latex_errors_spec (log : str) :
  _parse_latex_errors log
  = (List.map (fun k => join [NL] (error_context (split NL log) (Z.of_nat k)))
              (error_indices 0 (split NL log)),
     List.map strip
       (List.filter (fun l => negb (is_error_line l) && is_warning_line l)
                    (split NL log))).
Proof.
  unfold _parse_latex_errors.
  exact (parse_lines_spec (split NL log) 0 (split NL log) [] []).
Qed.

Lemma error_indices_length (i : nat) (rest : list str) :
  length (error_indices i rest) = length (List.filter is_error_line rest).
Proof.
  revert i. induction rest as [|l rest IH]; intros i; simpl; [done|].
  destruct (is_error_line l); simpl; by rewrite IH.
Qed.

Lemma error_indices_elem (i k : nat) (rest : list str) (line : str) :
  rest !! k = Some line -> is_error_line line = true ->
  In (i + k)%nat (error_indices i rest).
Proof.
  revert i k. induction rest as [|l rest IH]; intros i k Hk He; [done|].
  destruct k as [|k]; simpl in *.
  - injection Hk as ->. rewrite He, Nat.add_0_r. by left.
  - replace (i + S k)%nat with (S i + k)%nat by lia.
    destruct (is_error_line l); [right|]; by apply IH.
Qed.

Lemma filter_disjoint_length {A : Type} (p q : A -> bool) (l : list A) :
  (length (List.filter p l)
   + length (List.filter (fun x => negb (p x) && q x) l) <= length l)%nat.
Proof.
  induction l as [|x l IH]; simpl; [done|].
  destruct (p x), (q x); simpl; lia.
Qed.

(** C5, as the code has it: the block of the fatal line at index [i] is
    made of the lines before it back to index [i-2] but not past the
    start of the log (so [min 2 i] of them), the fatal line, and the
    next lines up to index [i+2] but not past the end of the log. *)
Theorem error_block_context (log : str) (i : nat) (line : str) :
  split NL log !! i = Some line ->
  is_error_line line = true ->
  let lines := split NL log in
  let leading := take (Nat.min 2 i) (drop (i - 2) lines) in
  let trailing := take 2 (drop (S i) lines) in
  In (join [NL] (leading ++ [line] ++ trailing))
     (fst (_parse_latex_errors log))
  /\ error_context lines (Z.of_nat i) = leading ++ [line] ++ trailing
  /\ length leading = Nat.min 2 i
  /\ length trailing = Nat.min 2 (length lines - S i).
Proof.
  intros Hi He lines leading trailing.
  pose proof (lookup_lt_Some _ _ _ Hi) as Hlt.
  pose proof (error_context_shape lines i line Hi) as Hshape.
  split; [|split; [done|split]].
  - rewrite parse_latex_errors_spec. cbn [fst].
    subst leading trailing. rewrite <- Hshape.
    apply (List.in_map (fun k => join [NL] (error_context lines (Z.of_nat k)))).
    apply (error_indices_elem 0 i lines line Hi He).
  - subst leading. rewrite length_take, length_drop. fold lines in Hlt. lia.
  - subst trailing. rewrite length_take, length_drop. lia.
Qed.

(** C9: a log line counts as an error or as a warning, never as both, and
    the error test is made first. The warnings are the stripped lines
    that pass the warning test and fail the error test; the errors are
    one block per line that passes the error test. *)
Theorem error_precedes_warning (log : str) :
  let lines := split NL log in
  snd (_parse_latex_errors log)
  = List.map strip
      (List.filter (fun l => negb (is_error_line l) && is_warning_line l)
                   lines)
  /\ length (fst (_parse_latex_errors log))
     = length (List.filter is_error_line lines)
  /\ (length (fst (_parse_latex_errors log))
      + length (snd (_parse_latex_errors log)) <= length lines)%nat.
Proof.
  intros lines. rewrite parse_latex_errors_spec. cbn [fst snd]. fold lines.
  split; [done|]. rewrite !List.length_map, error_indices_length.
  split; [done|]. apply filter_disjoint_length.
Qed.

End LogParserFacts.

(** ** Emitter *)

Section EmitterFacts.

Lemma list_depth_app (a b : list str) (d : nat) :
  list_depth (a ++ b) d
  = match list_depth a d with
    | Some d' => list_depth b d'
    | None => None
    end.
Proof.
  revert d. induction a as [|l a IH]; intros d; simpl; [done|].
  destruct (eqb l BEGIN_ITEMIZE); [apply IH|].
  destruct (eqb l END_ITEMIZE); [|apply IH].
  destruct d; [done|apply IH].
Qed.

Lemma list_depth_neutral (ps : list str) (d : nat) :
  forallb neutral ps = true -> list_depth ps d = Some d.
Proof.
  induction ps as [|p ps IH]; simpl; [done|].
  unfold neutral at 1. intros Hn.
  apply andb_prop in Hn as [Hp Hps]. apply andb_prop in Hp as [Hb He].
  apply negb_true_iff in Hb, He. rewrite Hb, He. by apply IH.
Qed.

Lemma bs_ok_app (a b : str) :
  bs_ok a = true -> bs_ok b = true -> bs_ok (a ++ b) = true.
Proof.
  induction a as [|c a IH]; simpl; [done|]. intros Ha Hb.
  apply andb_prop in Ha as [Hc Ha]. rewrite (IH Ha Hb), andb_true_r.
  destruct (N.eqb c BACKSLASH); [|done]. by destruct a.
Qed.

Lemma bs_ok_replace (s : str) :
  bs_ok (replace BACKSLASH (lit "\textbackslash{}") s) = true.
Proof.
  induction s as [|d s IH]; simpl; [done|].
  destruct (N.eqb d BACKSLASH) eqn:E.
  - apply bs_ok_app; [by vm_compute|done].
  - simpl. by rewrite E, IH.
Qed.

Lemma bs_ok_escape_latex (content : str) : bs_ok (escape_latex content) = true.
Proof. unfold escape_latex. simpl. apply bs_ok_replace. Qed.

Lemma bs_ok_neutral (p : str) : bs_ok p = true -> neutral p = true.
Proof.
  intros Hp. unfold neutral, eqb.
  rewrite !bool_decide_eq_false_2; [done| |]; intros ->; by vm_compute in Hp.
Qed.

Lemma bs_ok_split (s : str) :
  bs_ok s = true -> forallb bs_ok (split NL s) = true.
Proof.
  induction s as [|c s IH]; [done|]. intros Hs.
  simpl in Hs. apply andb_prop in Hs as [Hc Hs]. specialize (IH Hs).
  simpl. destruct (N.eqb c NL) eqn:Ec; [done|].
  pose proof (split_not_nil NL s) as Hne.
  destruct (split NL s) as [|f fs] eqn:Ef; [done|].
  simpl in IH. apply andb_prop in IH as [Hf Hfs].
  simpl. rewrite Hf, Hfs, !andb_true_r.
  destruct (N.eqb c BACKSLASH); [|done].
  destruct s as [|d s]; [done|].
  simpl in Ef. apply andb_prop in Hc as [Hc Hd].
  apply negb_true_iff in Hd. rewrite Hd in Ef.
  destruct (split NL s); injection Ef as <- _; by rewrite Hc, Hd.
Qed.

(** The text of a line whose backslashes are all of this kind holds no
    [begin] or [end] of a list, however it is cut at newlines. *)
Lemma bs_ok_inert (l : str) (d : nat) :
  bs_ok l = true -> list_depth (split NL l) d = Some d.
Proof.
  intros Hl. apply list_depth_neutral.
  apply bs_ok_split in Hl. induction (split NL l) as [|p ps IH]; [done|].
  simpl in *. apply andb_prop in Hl as [Hp Hps].
  by rewrite (bs_ok_neutral p Hp), IH.
Qed.

Lemma split_join (parts : list str) :
  parts <> [] -> split NL (join [NL] parts) = text_lines parts.
Proof.
  induction parts as [|p ps IH]; [done|]. intros _.
  destruct ps as [|q ps].
  - simpl. by rewrite app_nil_r.
  - change (join [NL] (p :: q :: ps)) with (p ++ NL :: join [NL] (q :: ps)).
    rewrite split_cons_sep, IH by done. reflexivity.
Qed.

Lemma text_lines_snoc (parts : list str) (l : str) :
  text_lines (parts ++ [l]) = text_lines parts ++ split NL l.
Proof.
  unfold text_lines. rewrite flat_map_app. simpl. by rewrite app_nil_r.
Qed.

Lemma emitter_ok_append (l : str) (e : emitter) :
  bs_ok l = true -> emitter_ok e -> emitter_ok (append l e).
Proof.
  unfold emitter_ok, append, open_count. simpl. intros Hl He.
  rewrite text_lines_snoc, list_depth_app, He. by apply bs_ok_inert.
Qed.

Lemma list_depth_begin (d : nat) :
  list_depth (split NL BEGIN_ITEMIZE) d = Some (S d).
Proof. reflexivity. Qed.

Lemma list_depth_end (d : nat) :
  list_depth (split NL END_ITEMIZE) (S d) = Some d.
Proof. reflexivity. Qed.

Lemma emitter_ok_close_subitemize (e : emitter) :
  emitter_ok e ->
  emitter_ok (close_subitemize e) /\ in_subitemize (close_subitemize e) = false
  /\ in_itemize (close_subitemize e) = in_itemize e.
Proof.
  unfold emitter_ok, close_subitemize, open_count.
  destruct e as [lc prim [|]]; simpl; intros He; [|done].
  rewrite text_lines_snoc, list_depth_app, He.
  rewrite Nat.add_1_r, list_depth_end. by rewrite Nat.add_0_r.
Qed.

Lemma emitter_ok_close_itemize (e : emitter) :
  emitter_ok e ->
  emitter_ok (close_itemize e) /\ in_itemize (close_itemize e) = false
  /\ in_subitemize (close_itemize e) = in_subitemize e.
Proof.
  unfold emitter_ok, close_itemize, open_count.
  destruct e as [lc [|] sub]; simpl; intros He; [|done].
  by rewrite text_lines_snoc, list_depth_app, He, list_depth_end.
Qed.

Lemma emitter_ok_open_itemize (e : emitter) :
  emitter_ok e -> emitter_ok (open_itemize e).
Proof.
  unfold emitter_ok, open_itemize, open_count.
  destruct e as [lc [|] sub]; simpl; intros He; [done|].
  by rewrite text_lines_snoc, list_depth_app, He, list_depth_begin.
Qed.

Lemma emitter_ok_open_subitemize (e : emitter) :
  emitter_ok e -> emitter_ok (open_subitemize e).
Proof.
  unfold emitter_ok, open_subitemize, open_count.
  destruct e as [lc prim [|]]; simpl; intros He; [done|].
  rewrite text_lines_snoc, list_depth_app, He, list_depth_begin.
  f_equal. lia.
Qed.

Lemma emitter_ok_close_both (e : emitter) :
  emitter_ok e -> emitter_ok (close_itemize (close_subitemize e)).
Proof.
  intros He. apply emitter_ok_close_subitemize in He as (He & _ & _).
  by apply emitter_ok_close_itemize in He as (He & _ & _).
Qed.

Lemma bs_ok_wrap (before content after : str) :
  bs_ok before = true -> bs_ok after = true ->
  bs_ok (before ++ escape_latex content ++ after) = true.
Proof.
  intros Hb Ha. apply bs_ok_app; [done|].
  apply bs_ok_app; [apply bs_ok_escape_latex|done].
Qed.

Lemma emitter_ok_emit (e : emitter) (item : str * str) :
  emitter_ok e -> emitter_ok (emit e item).
Proof.
  intros He. destruct item as [content_type content]. unfold emit.
  repeat case_match; try done;
    repeat first
      [ exact He
      | apply emitter_ok_append; [first [done | by apply bs_ok_wrap
                                        | apply bs_ok_escape_latex
                                        | by apply bs_ok_app;
                                          [|apply bs_ok_escape_latex]]|]
      | by apply emitter_ok_close_both
      | apply emitter_ok_open_itemize
      | by apply emitter_ok_open_subitemize
      | by apply emitter_ok_close_subitemize ].
Qed.

Lemma emitter_ok_emit_all (structured_content : list (str * str)) :
  emitter_ok (emit_all structured_content).
Proof.
  unfold emit_all.
  assert (emitter_ok (Emitter header false false)) as H0 by reflexivity.
  revert H0. generalize (Emitter header false false).
  induction structured_content as [|item sc IH]; intros e He; [done|].
  simpl. apply IH. by apply emitter_ok_emit.
Qed.

Lemma convert_to_latex_lines_parts (structured_content : list (str * str)) :
  convert_to_latex_lines structured_content
  = latex_content (emit_all structured_content)
    ++ closing (emit_all structured_content) ++ footer.
Proof.
  unfold convert_to_latex_lines, finish, closing.
  destruct (in_subitemize _), (in_itemize _); simpl;
    by rewrite <- ?app_assoc.
Qed.

Lemma latex_content_emit_not_nil (e : emitter) (item : str * str) :
  latex_content e <> [] -> latex_content (emit e item) <> [].
Proof.
  destruct e as [lc prim sub], item as [content_type content].
  unfold emit, append, close_itemize, close_subitemize, open_itemize,
    open_subitemize. simpl. intros Hlc.
  repeat case_match; simpl in *; try done;
    by intros [_ ?]%app_eq_nil.
Qed.

Lemma latex_content_emit_all_not_nil (structured_content : list (str * str)) :
  latex_content (emit_all structured_content) <> [].
Proof.
  unfold emit_all.
  assert (latex_content (Emitter header false false) <> []) as H0 by done.
  revert H0. generalize (Emitter header false false).
  induction structured_content as [|item sc IH]; intros e He; [done|].
  simpl. apply IH. by apply latex_content_emit_not_nil.
Qed.

Lemma list_depth_closing (e : emitter) :
  emitter_ok e ->
  length (closing e) = open_count e
  /\ list_depth (text_lines (latex_content e ++ closing e)) 0 = Some 0%nat.
Proof.
  unfold emitter_ok, closing, open_count, text_lines.
  destruct e as [lc [|] [|]]; simpl; intros He;
    (split; [done|]); rewrite flat_map_app, list_depth_app, He;
    reflexivity.
Qed.

(** C2: whatever the sequence of blocks, the lists opened while it is
    consumed are closed before the footer is appended. The document is
    the text written by the loop, then one [end] line per list still
    open (the secondary one first), then the footer; read line by line,
    the text written by the loop leaves exactly that many lists open,
    none is open before the footer, none at the end of the document,
    and no [end] line ever closes a list that is not open. *)
Theorem convert_to_latex_closes_lists (structured_content : list (str * str)) :
  let e := emit_all structured_content in
  convert_to_latex structured_content
  = join [NL] (latex_content e ++ closing e ++ footer)
  /\ closing e = (if in_subitemize e then [END_ITEMIZE] else [])
                 ++ (if in_itemize e then [END_ITEMIZE] else [])
  /\ list_depth (split NL (join [NL] (latex_content e))) 0
     = Some (length (closing e))
  /\ list_depth (split NL (join [NL] (latex_content e ++ closing e))) 0
     = Some 0%nat
  /\ list_depth (split NL (convert_to_latex structured_content)) 0 = Some 0%nat.
Proof.
  intros e.
  pose proof (emitter_ok_emit_all structured_content) as Hok. fold e in Hok.
  pose proof (latex_content_emit_all_not_nil structured_content) as Hne.
  fold e in Hne.
  destruct (list_depth_closing e Hok) as [Hlen Hclosed].
  unfold convert_to_latex.
  rewrite convert_to_latex_lines_parts. fold e.
  split; [done|]. split; [done|].
  rewrite !split_join; try done; try (by intros [? _]%app_eq_nil).
  split; [by rewrite Hlen|]. split; [done|].
  rewrite app_assoc. unfold text_lines in *.
  rewrite flat_map_app, list_depth_app, Hclosed. reflexivity.
Qed.

End EmitterFacts.

(** ** Substrings *)

Section StringFacts.

Lemma startswith_spec (s p : str) :
  startswith s p = true <-> exists post, s = p ++ post.
Proof.
  revert s. induction p as [|c p IH]; intros s.
  - split; [by exists s|by destruct s].
  - destruct s as [|d s]; simpl; [split; [done|by intros [? ?]]|].
    rewrite andb_true_iff, N.eqb_eq, IH. split.
    + intros [-> [post ->]]. by exists post.
    + intros [post Heq]. injection Heq as -> ->. eauto.
Qed.

Lemma contains_spec (s p : str) :
  contains s p = true <-> exists pre post, s = pre ++ p ++ post.
Proof.
  induction s as [|c s IH].
  - change (contains [] p) with (startswith [] p || false).
    rewrite orb_false_r, startswith_spec. split.
    + intros [post Heq]. by exists [], post.
    + intros (pre & post & Heq). symmetry in Heq.
      apply app_eq_nil in Heq as [_ Heq]. apply app_eq_nil in Heq as [-> ->].
      by exists [].
  - change (contains (c :: s) p)
      with (startswith (c :: s) p || contains s p).
    rewrite orb_true_iff, startswith_spec, IH. split.
    + intros [[post Heq]|(pre & post & ->)].
      * by exists [], post.
      * by exists (c :: pre), post.
    + intros (pre & post & Heq). destruct pre as [|c' pre].
      * left. by exists post.
      * right. injection Heq as -> ->. eauto.
Qed.

Lemma contains_app_l (a s p : str) :
  contains s p = true -> contains (a ++ s) p = true.
Proof.
  rewrite !contains_spec. intros (pre & post & ->).
  exists (a ++ pre), post. by rewrite <- app_assoc.
Qed.

Lemma contains_app_r (s b p : str) :
  contains s p = true -> contains (s ++ b) p = true.
Proof.
  rewrite !contains_spec. intros (pre & post & ->).
  exists pre, (post ++ b). by rewrite <- !app_assoc.
Qed.

Lemma contains_refl (s : str) : contains s s = true.
Proof. apply contains_spec. exists [], []. by rewrite app_nil_r. Qed.

Lemma contains_trans (a b c : str) :
  contains a b = true -> contains b c = true -> contains a c = true.
Proof.
  rewrite !contains_spec. intros (pre & post & ->) (pre' & post' & ->).
  exists (pre ++ pre'), (post' ++ post). by rewrite <- !app_assoc.
Qed.

Lemma contains_join (sep : str) (parts : list str) (x : str) :
  In x parts -> contains (join sep parts) x = true.
Proof.
  induction parts as [|p ps IH]; [done|]. intros [->|Hin].
  - destruct ps; [apply contains_refl|].
    apply contains_app_r, contains_refl.
  - destruct ps as [|q ps]; [done|].
    change (join sep (p :: q :: ps)) with (p ++ sep ++ join sep (q :: ps)).
    by apply contains_app_l, contains_app_l, IH.
Qed.

Lemma error_msg_contains_block (errors : list str) (stderr log block : str) :
  In block errors -> contains (error_msg errors stderr log) block = true.
Proof.
  intros Hin. unfold error_msg.
  assert (errors <> []) as Hne by (by intros ->).
  rewrite (bool_decide_eq_false_2 _ Hne).
  repeat case_bool_decide; rewrite <- ?app_assoc;
    repeat first [ apply contains_app_r; by apply contains_join
                 | apply contains_app_l ].
Qed.

Lemma error_msg_contains_stderr (errors : list str) (stderr log : str) :
  contains (error_msg errors stderr log) stderr = true.
Proof.
  unfold error_msg.
  destruct (bool_decide (stderr = [])) eqn:E.
  - apply bool_decide_eq_true in E as ->. apply contains_spec.
    by eexists [], _.
  - repeat case_bool_decide; rewrite <- ?app_assoc;
      repeat first [ apply contains_app_r; apply contains_refl
                   | apply contains_app_l ].
Qed.

End StringFacts.

(** ** Pass loop *)

Section PassLoopFacts.
Variable subprocess_run : str -> Z -> gmap str str -> run_result.

Lemma range_cons (a b : Z) : a < b -> range a b = a :: range (a + 1) b.
Proof.
  intros Hab. unfold range.
  replace (Z.to_nat (b - a)) with (S (Z.to_nat (b - (a + 1)))) by lia.
  simpl. f_equal; [lia|].
  rewrite <- seq_shift, List.map_map.
  apply List.map_ext. intros k. lia.
Qed.

Lemma range_nil (a b : Z) : b <= a -> range a b = [].
Proof.
  intros Hab. unfold range.
  by replace (Z.to_nat (b - a)) with 0%nat by lia.
Qed.

Lemma pass_loop_passes_run (self : t) (log_file : str) (max_passes : Z)
    (passes : list Z) (st : loop_state) :
  (passes_run st + (if passes is [] then 0 else 1)
   <= passes_run (fst (pass_loop subprocess_run self log_file max_passes
                                 passes st)))%nat.
Proof.
  revert st. induction passes as [|pass_num rest IH]; intros st; simpl.
  - lia.
  - unfold _run_latex_command.
    destruct (subprocess_run _ _ _) as [d'|e d'|returncode stderr d'];
      simpl; try lia.
    destruct (returncode =? 0); simpl.
    + destruct (_ && _); simpl; [|lia].
      etrans; [|apply IH]. simpl. lia.
    + destruct (_parse_latex_errors _). simpl. lia.
Qed.

Lemma pass_loop_passes_run_cons (self : t) (log_file : str) (max_passes : Z)
    (pass_num : Z) (rest : list Z) (st : loop_state) :
  (passes_run st + 1
   <= passes_run (fst (pass_loop subprocess_run self log_file max_passes
                                 (pass_num :: rest) st)))%nat.
Proof.
  exact (pass_loop_passes_run self log_file max_passes (pass_num :: rest) st).
Qed.

(** The loop raises nothing but [Exception]. *)
Lemma pass_loop_raises_Exception (self : t) (log_file : str) (max_passes : Z)
    (passes : list Z) (st : loop_state) (e : exn) :
  snd (pass_loop subprocess_run self log_file max_passes passes st) = Some e ->
  exists msg, e = Exception msg.
Proof.
  revert st. induction passes as [|pass_num rest IH]; intros st; simpl.
  - done.
  - unfold _run_latex_command.
    destruct (subprocess_run _ _ _) as [d'|e' d'|returncode stderr d'];
      simpl; try (intros [= <-]; eauto).
    destruct (returncode =? 0); simpl.
    + destruct (_ && _); [apply IH|done].
    + destruct (d' !! log_file) as [text|].
      * destruct (_parse_latex_errors text). simpl. intros [= <-]. eauto.
      * destruct (_parse_latex_errors []). simpl. intros [= <-]. eauto.
Qed.


(** The step of the loop on a nonzero exit code. *)
Lemma pass_loop_nonzero_exit (self : t) (log_file : str) (max_passes k : Z)
    (st : loop_state) (returncode : Z) (stderr : str) (d' : gmap str str) :
  k <= max_passes ->
  subprocess_run (engine self) k (dir st)
  = CompletedProcess returncode stderr d' ->
  returncode <> 0 ->
  let log := default [] (d' !! log_file) in
  pass_loop subprocess_run self log_file max_passes
            (range k (max_passes + 1)) st
  = (LoopState d' (Some log) (S (passes_run st)),
     Some (Exception (error_msg (fst (_parse_latex_errors log)) stderr log))).
Proof.
  intros Hk Hrun Hrc log. rewrite range_cons by lia. simpl.
  unfold _run_latex_command. rewrite Hrun. simpl.
  apply Z.eqb_neq in Hrc. rewrite Hrc. simpl.
  subst log. destruct (d' !! log_file) as [text|]; simpl.
  - by destruct (_parse_latex_errors text).
  - by destruct (_parse_latex_errors []).
Qed.


(** C3, as the code has it: a pass that exits with a nonzero code ends
    the loop at once with an exception; no later pass is started. Its
    message holds every error block parsed from the log (one block per
    line that starts with [!] or holds [Error:]) and the text of the
    standard error. A text such as [! Undefined control sequence] is in
    a block, and the list of blocks is not empty, when it stands on a
    line of the log that is fatal (a line that starts with [!] or holds
    [Error:]). *)
Theorem nonzero_exit_aborts (self : t) (log_file : str) (max_passes k : Z)
    (st : loop_state) (returncode : Z) (stderr : str) (d' : gmap str str) :
  k <= max_passes ->
  subprocess_run (engine self) k (dir st)
  = CompletedProcess returncode stderr d' ->
  returncode <> 0 ->
  let log := default [] (d' !! log_file) in
  let errors := fst (_parse_latex_errors log) in
  let msg := error_msg errors stderr log in
  pass_loop subprocess_run self log_file max_passes
            (range k (max_passes + 1)) st
  = (LoopState d' (Some log) (S (passes_run st)), Some (Exception msg))
  /\ errors
     = List.map (fun i => join [NL] (error_context (split NL log) (Z.of_nat i)))
                (error_indices 0 (split NL log))
  /\ (forall block, In block errors -> contains msg block = true)
  /\ contains msg stderr = true
  /\ (forall (i : nat) (line text : str),
        split NL log !! i = Some line ->
        is_error_line line = true ->
        contains line text = true ->
        errors <> []
        /\ exists block, In block errors /\ contains block text = true
                         /\ contains msg text = true).
Proof.
  intros Hk Hrun Hrc log errors msg.
  split; [by apply (pass_loop_nonzero_exit self log_file max_passes k st
                     returncode stderr d')|].
  split; [subst errors; by rewrite parse_latex_errors_spec|].
  split; [intros block Hin; by apply error_msg_contains_block|].
  split; [apply error_msg_contains_stderr|].
  intros i line text Hi He Htext.
  assert (In (join [NL] (error_context (split NL log) (Z.of_nat i))) errors)
    as Hin.
  { subst errors. rewrite parse_latex_errors_spec. cbn [fst].
    apply (List.in_map
             (fun k => join [NL] (error_context (split NL log) (Z.of_nat k)))).
    apply (error_indices_elem 0 i _ line Hi He). }
  split; [intros Hnil; by rewrite Hnil in Hin|].
  exists (join [NL] (error_context (split NL log) (Z.of_nat i))).
  assert (contains (join [NL] (error_context (split NL log) (Z.of_nat i)))
                   text = true) as Hblock.
  { apply contains_trans with line; [|done]. apply contains_join.
    rewrite (error_context_shape _ i line Hi).
    apply in_or_app. right. by left. }
  split; [done|]. split; [done|].
  apply contains_trans with
    (join [NL] (error_context (split NL log) (Z.of_nat i))); [|done].
  by apply error_msg_contains_block.
Qed.

End PassLoopFacts.

(** ** Paths *)

Section PathFacts.

Lemma rfind_from_absent (c : char) (s : str) (i acc : Z) :
  forallb (fun d => negb (N.eqb d c)) s = true -> rfind_from c s i acc = acc.
Proof.
  revert i acc. induction s as [|d s IH]; intros i acc; simpl; [done|].
  intros [Hd Hs]%andb_prop. apply negb_true_iff in Hd. rewrite Hd. by apply IH.
Qed.

Lemma rfind_from_last (c : char) (stem ext : str) (i acc : Z) :
  forallb (fun d => negb (N.eqb d c)) ext = true ->
  rfind_from c (stem ++ c :: ext) i acc = i + len stem.
Proof.
  intros Hext. revert i acc.
  induction stem as [|d stem IH]; intros i acc; simpl.
  - rewrite N.eqb_refl, rfind_from_absent by done. unfold len. simpl. lia.
  - rewrite IH. unfold len. simpl length. lia.
Qed.

(** The suffix of a name with a non-empty stem and a non-empty extension
    that holds no further dot. *)
Lemma suffix_stem_ext (dir stem ext : str) :
  stem <> [] -> ext <> [] ->
  forallb (fun d => negb (N.eqb d (chr "."))) ext = true ->
  suffix (dir, stem ++ chr "." :: ext) = chr "." :: ext.
Proof.
  intros Hstem Hext Hdot. unfold suffix, name, rfind. cbn [snd].
  rewrite rfind_from_last by done.
  assert (0 < len stem) by (unfold len; destruct stem; simpl; [done|lia]).
  assert (0 < len ext) by (unfold len; destruct ext; simpl; [done|lia]).
  replace (0 <? 0 + len stem) with true by (symmetry; apply Z.ltb_lt; lia).
  replace (0 + len stem <? len (stem ++ chr "." :: ext) - 1) with true.
  - cbn [andb]. replace (Z.to_nat (0 + len stem)) with (length stem)
      by (unfold len; lia).
    by rewrite drop_app_length.
  - symmetry. apply Z.ltb_lt. unfold len in *.
    rewrite length_app. simpl length. lia.
Qed.

End PathFacts.

(** ** Compiler driver *)

Section DriverFacts.
Context `{UnicodeData}.
Variable subprocess_run : str -> Z -> gmap str str -> run_result.
Variable can_write : Path -> bool.

Lemma compile_in_temp_dirs (self : t) (tex_path output_pdf : Path)
    (max_passes : Z) (tmp : positive) (w : world) (other : positive) :
  other <> tmp ->
  temp_dirs (fst (compile_in subprocess_run can_write self tex_path
                             output_pdf max_passes tmp w)) !! other
  = temp_dirs w !! other.
Proof.
  intros Hne. unfold compile_in.
  repeat case_match; simpl; try done; by rewrite lookup_insert_ne.
Qed.

Lemma with_TemporaryDirectory_snd {A : Type}
    (body : positive -> world -> world * A) (w : world) :
  snd (with_TemporaryDirectory body w)
  = snd (body (fresh (dom (temp_dirs w)))
              (World (fs w) (<[fresh (dom (temp_dirs w)) := ∅]> (temp_dirs w)))).
Proof. unfold with_TemporaryDirectory. by destruct (body _ _). Qed.

Lemma with_TemporaryDirectory_temp_dirs {A : Type}
    (body : positive -> world -> world * A) (w : world) :
  (forall tmp w0 other, other <> tmp ->
     temp_dirs (fst (body tmp w0)) !! other = temp_dirs w0 !! other) ->
  temp_dirs (fst (with_TemporaryDirectory body w)) = temp_dirs w.
Proof.
  intros Hbody. unfold with_TemporaryDirectory.
  set (tmp := fresh (dom (temp_dirs w))).
  specialize (Hbody tmp (World (fs w) (<[tmp := ∅]> (temp_dirs w)))).
  destruct (body _ _) as [w1 r]. simpl in *.
  apply map_eq. intros other. destruct (decide (other = tmp)) as [->|Hne].
  - rewrite lookup_delete_eq. symmetry. apply not_elem_of_dom.
    apply is_fresh.
  - by rewrite lookup_delete_ne, Hbody, lookup_insert_ne.
Qed.

(** C8: whatever the call returns or raises, the temporary directory it
    made does not exist afterwards, and the set of temporary directories
    is what it was before the call. This holds for every engine
    behaviour (success, nonzero exit, timeout, no PDF written), for
    every failure of the final copy, and whatever the [cleanup] flag. *)
Theorem convert_to_pdf_removes_temp_dir (self : t) (tex_file : Path)
    (output_pdf : option Path) (max_passes : Z) (w : world) :
  let after := fst (convert_to_pdf subprocess_run can_write self tex_file
                                   output_pdf max_passes w) in
  temp_dirs after = temp_dirs w
  /\ temp_dirs after !! fresh (dom (temp_dirs w)) = None.
Proof.
  intros after.
  assert (temp_dirs after = temp_dirs w) as Heq.
  { subst after. unfold convert_to_pdf.
    repeat case_match; simpl; try done;
      apply with_TemporaryDirectory_temp_dirs;
      intros tmp w0 other Hne; by apply compile_in_temp_dirs. }
  split; [done|]. rewrite Heq. apply not_elem_of_dom, is_fresh.
Qed.

Lemma compile_in_not_extension_error (self : t) (tex_path output_pdf : Path)
    (max_passes : Z) (tmp : positive) (w : world) :
  snd (compile_in subprocess_run can_write self tex_path output_pdf
                  max_passes tmp w)
  <> inl (ValueError (lit "Input file must have .tex extension")).
Proof.
  unfold compile_in. repeat case_match; simpl; try done.
  match goal with
  | Hloop : pass_loop _ _ _ _ _ _ = (_, Some _) |- _ =>
      apply (f_equal snd) in Hloop; simpl in Hloop;
      apply pass_loop_raises_Exception in Hloop as [msg ->]
  end.
  done.
Qed.

Lemma lower_upper_tex :
  lower (lit ".TEX") = lit ".tex" /\ lower (lit ".Tex") = lit ".tex".
Proof. by rewrite !lower_ascii by reflexivity. Qed.

(** C10: for an input file that exists, the extension error is raised
    exactly when the lower-cased suffix is not [.tex]; a file whose
    suffix is [.TEX] or [.Tex] passes the check, and such is every name
    made of a non-empty stem followed by [.TEX] or [.Tex]. *)
Theorem extension_check_case_insensitive (self : t) (tex_file : Path)
    (output_pdf : option Path) (max_passes : Z) (w : world) :
  is_Some (fs w !! tex_file) ->
  let result := snd (convert_to_pdf subprocess_run can_write self tex_file
                                    output_pdf max_passes w) in
  let invalid : exn + Path :=
    inl (ValueError (lit "Input file must have .tex extension")) in
  (result = invalid <-> lower (suffix tex_file) <> lit ".tex")
  /\ (suffix tex_file = lit ".TEX" \/ suffix tex_file = lit ".Tex" ->
      result <> invalid)
  /\ (forall stem : str,
        stem <> [] ->
        name tex_file = stem ++ lit ".TEX" \/ name tex_file = stem ++ lit ".Tex" ->
        result <> invalid).
Proof.
  intros Hexists result invalid.
  assert (result = invalid <-> lower (suffix tex_file) <> lit ".tex") as Hiff.
  { subst result invalid. unfold convert_to_pdf.
    rewrite (bool_decide_eq_true_2 _ Hexists). simpl negb. cbv iota.
    unfold eqb. case_bool_decide as Hsuf; simpl.
    - split; [|done]. repeat case_match; simpl;
        first [ rewrite with_TemporaryDirectory_snd; intros Hbad;
                by apply compile_in_not_extension_error in Hbad
              | intros [= Hmsg]; by vm_compute in Hmsg ].
    - done. }
  destruct lower_upper_tex as [HTEX HTex].
  assert (suffix tex_file = lit ".TEX" \/ suffix tex_file = lit ".Tex" ->
          result <> invalid) as Hsuffix.
  { rewrite Hiff. intros [Hs|Hs] Hbad; apply Hbad; by rewrite Hs. }
  split; [done|]. split; [done|].
  intros stem Hstem Hname. apply Hsuffix.
  destruct tex_file as [dir nm]. simpl in Hname.
  destruct Hname as [->| ->]; [left|right].
  - change (lit ".TEX") with (chr "." :: lit "TEX").
    by apply suffix_stem_ext.
  - change (lit ".Tex") with (chr "." :: lit "Tex").
    by apply suffix_stem_ext.
Qed.

End DriverFacts.

(** ** The statements on sample inputs *)

(** C5 as first written (exactly two lines of leading context) fails on
    a log whose first line is fatal: the block is that line alone. *)
Lemma error_block_first_line_has_no_leading_context :
  split NL (lit "! Boom") !! 0%nat = Some (lit "! Boom")
  /\ is_error_line (lit "! Boom") = true
  /\ fst (_parse_latex_errors (lit "! Boom")) = [lit "! Boom"]
  /\ ~ (exists leading trailing : list str,
          length leading = 2%nat /\ (length trailing <= 2)%nat
          /\ error_context (split NL (lit "! Boom")) 0
             = leading ++ [lit "! Boom"] ++ trailing).
Proof.
  repeat split; try reflexivity.
  intros (leading & trailing & Hlen & _ & Heq).
  apply (f_equal (@length str)) in Heq.
  rewrite !length_app, Hlen in Heq. vm_compute in Heq. lia.
Qed.

Lemma error_block_context_witness :
  split NL failing_log !! 2%nat = Some (lit "! Undefined control sequence.")
  /\ is_error_line (lit "! Undefined control sequence.") = true
  /\ error_context (split NL failing_log) 2
     = [lit "(./paper.tex"; lit "LaTeX2e"]
       ++ [lit "! Undefined control sequence."]
       ++ [lit "l.5 \foo"; lit "No pages of output."].
Proof.
  split; [reflexivity|]. split; [reflexivity|].
  exact (proj1 (proj2 (error_block_context failing_log 2
                         (lit "! Undefined control sequence.")
                         eq_refl eq_refl))).
Defined.

(** C3 as first written fails on a log that holds the words of the
    message in the middle of a line: no line is fatal, the list of error
    blocks is empty and the exception does not hold the words. *)
Lemma midline_text_gives_no_error_block :
  contains midline_log (lit "! Undefined control sequence") = true
  /\ engine_midline (lit "pdflatex") 1 ∅
     = CompletedProcess 1 [] (<[lit "paper.log" := midline_log]> ∅)
  /\ fst (_parse_latex_errors midline_log) = []
  /\ pass_loop engine_midline pdflatex (lit "paper.log") 3 (range 1 4)
               (LoopState ∅ None 0)
     = (LoopState (<[lit "paper.log" := midline_log]> ∅) (Some midline_log) 1,
        Some (Exception
                (lit "LaTeX compilation failed!" ++ [NL; NL]
                 ++ lit "For full details, check the log output above.")))
  /\ contains (lit "LaTeX compilation failed!" ++ [NL; NL]
              ++ lit "For full details, check the log output above.")
             (lit "! Undefined control sequence") = false.
Proof. repeat split; by vm_compute. Qed.

Lemma nonzero_exit_aborts_witness :
  1 <= 3
  /\ engine_failing (engine pdflatex) 1 ∅
     = CompletedProcess 1 (lit "halted") (<[lit "paper.log" := failing_log]> ∅)
  /\ 1 <> 0
  /\ snd (pass_loop engine_failing pdflatex (lit "paper.log") 3 (range 1 4)
                    (LoopState ∅ None 0))
     = Some (Exception
               (error_msg (fst (_parse_latex_errors failing_log))
                          (lit "halted") failing_log))
  /\ fst (_parse_latex_errors failing_log) <> [].
Proof.
  assert (1 <= 3) as Hk by lia.
  assert (1 <> 0) as Hrc by lia.
  pose proof (nonzero_exit_aborts engine_failing pdflatex (lit "paper.log")
                3 1 (LoopState ∅ None 0) 1 (lit "halted")
                (<[lit "paper.log" := failing_log]> ∅) Hk eq_refl Hrc)
    as Hthm.
  cbv zeta in Hthm. destruct Hthm as (Hloop & _ & _ & _ & Htext).
  split; [exact Hk|]. split; [reflexivity|]. split; [exact Hrc|].
  split.
  - change (range 1 4) with (range 1 (3 + 1)). rewrite Hloop. reflexivity.
  - exact (proj1 (Htext 2%nat (lit "! Undefined control sequence.")
                        (lit "! Undefined control sequence")
                        eq_refl eq_refl eq_refl)).
Defined.


Lemma extension_check_case_insensitive_witness :
  is_Some (fs sample_world !! paper_tex)
  /\ name paper_tex = lit "paper" ++ lit ".TEX"
  /\ snd (convert_to_pdf engine_two_passes (fun _ => true) pdflatex paper_tex
                         None 3 sample_world)
     <> inl (ValueError (lit "Input file must have .tex extension")).
Proof.
  assert (is_Some (fs sample_world !! paper_tex)) as Hexists
    by (eexists; reflexivity).
  split; [exact Hexists|]. split; [reflexivity|].
  apply (proj2 (proj2 (extension_check_case_insensitive engine_two_passes
                         (fun _ => true) pdflatex paper_tex None 3
                         sample_world Hexists)) (lit "paper")).
  - discriminate.
  - left. reflexivity.
Defined.

(** The four outcomes of a call, on the sample engines: success after
    two passes, a failed compilation, a timeout, and no PDF written. In
    each the table of temporary directories is empty afterwards. *)
Example convert_to_pdf_outcomes :
  convert_to_pdf engine_two_passes (fun _ => true) pdflatex paper_tex None 3
                 sample_world
  = (World (<[(lit "/home/u/doc", lit "paper.pdf") := File (lit "%PDF-2")]>
              (fs sample_world)) ∅,
     inr (lit "/home/u/doc", lit "paper.pdf"))
  /\ convert_to_pdf engine_failing (fun _ => true) pdflatex paper_tex None 3
                    sample_world
     = (sample_world,
        inl (Exception (error_msg (fst (_parse_latex_errors failing_log))
                                  (lit "halted") failing_log)))
  /\ convert_to_pdf engine_hanging (fun _ => true) pdflatex paper_tex None 3
                    sample_world
     = (sample_world,
        inl (Exception (lit "LaTeX compilation timed out (5 minutes)")))
  /\ convert_to_pdf engine_silent (fun _ => true) pdflatex paper_tex None 3
                    sample_world
     = (sample_world,
        inl (Exception (lit
           "PDF file was not created, but no obvious errors were found"))).
Proof. repeat split; by vm_compute. Qed.

(** The examples of the classifier and of the bullet cleaner. *)
Example identify_structure_sample :
  identify_structure (lit "MY TITLE
  - item one

Key Features
Details:
plain text")
  = [ (lit "title", lit "MY TITLE");
      (lit "bullet1", lit "item one");
      (lit "section", lit "Key Features");
      (lit "subsection", lit "Details:");
      (lit "paragraph", lit "plain text") ]
  /\ clean_bullet_text ([BLACK_CIRCLE] ++ lit " Do the thing")
     = lit "Do the thing"
  /\ clean_bullet_text (lit "  " ++ [WHITE_CIRCLE] ++ lit " sub item")
     = lit "sub item".
Proof. repeat split; by vm_compute. Qed.

(** A line that passes both tests of the log parser is an error only. *)
Example error_and_warning_line :
  is_error_line (lit "! Package Warning: stop") = true
  /\ is_warning_line (lit "! Package Warning: stop") = true
  /\ _parse_latex_errors (lit "! Package Warning: stop")
     = ([lit "! Package Warning: stop"], []).
Proof. repeat split; by vm_compute. Qed.

(** ** More on escaping *)

Section EscapeFacts.

Lemma replace_app (c : char) (r a b : str) :
  replace c r (a ++ b) = replace c r a ++ replace c r b.
Proof.
  induction a as [|d a IH]; simpl; [done|]. by rewrite IH, <- app_assoc.
Qed.

Lemma fold_replace_app (table : list (char * str)) (a b : str) :
  fold_left (fun text '(c, replacement) => replace c replacement text)
            table (a ++ b)
  = fold_left (fun text '(c, replacement) => replace c replacement text)
              table a
    ++ fold_left (fun text '(c, replacement) => replace c replacement text)
                 table b.
Proof.
  revert a b. induction table as [|[c r] table IH]; intros a b; simpl; [done|].
  by rewrite replace_app, IH.
Qed.

Lemma escape_latex_flat_map (text : str) :
  escape_latex text = flat_map (fun c => escape_latex [c]) text.
Proof.
  induction text as [|c text IH]; [done|].
  change (c :: text) with ([c] ++ text).
  unfold escape_latex at 1. rewrite fold_replace_app.
  fold (escape_latex [c]). fold (escape_latex text). by rewrite IH.
Qed.

(** X1: escaping works character by character: the result for a text is
    the concatenation of the results for its characters, so escaping a
    concatenation is concatenating the escaped parts. *)
Theorem escape_latex_app (a b : str) :
  escape_latex (a ++ b) = escape_latex a ++ escape_latex b
  /\ escape_latex a = flat_map (fun c => escape_latex [c]) a.
Proof. split; [apply fold_replace_app|apply escape_latex_flat_map]. Qed.

Lemma escape_latex_plain_char (c : char) :
  is_special c = false -> escape_latex [c] = [c].
Proof.
  unfold is_special, latex_special_chars. cbn [existsb fst].
  rewrite !orb_false_iff.
  intros (H1 & H2 & H3 & H4 & H5 & H6 & H7 & H8 & H9 & H10 & _).
  rewrite N.eqb_sym in H1, H2, H3, H4, H5, H6, H7, H8, H9, H10.
  unfold escape_latex, latex_special_chars. cbn [fold_left replace].
  rewrite H1. cbn [app replace]. rewrite H2. cbn [app replace].
  rewrite H3. cbn [app replace]. rewrite H4. cbn [app replace].
  rewrite H5. cbn [app replace]. rewrite H6. cbn [app replace].
  rewrite H7. cbn [app replace]. rewrite H8. cbn [app replace].
  rewrite H9. cbn [app replace]. by rewrite H10.
Qed.

Lemma is_special_cases (c : char) :
  is_special c = true ->
  In c [chr "&"; chr "%"; chr "$"; chr "#"; chr "^"; chr "_"; chr "{";
        chr "}"; chr "~"; BACKSLASH].
Proof.
  unfold is_special. intros [[k r] [Hin Hk]]%existsb_exists.
  apply N.eqb_eq in Hk. simpl in Hk. subst k.
  apply (List.in_map fst) in Hin. exact Hin.
Qed.

(** X2: a text without any of the ten special characters is returned as
    it is. *)
Theorem escape_latex_plain (text : str) :
  forallb (fun c => negb (is_special c)) text = true ->
  escape_latex text = text.
Proof.
  rewrite escape_latex_flat_map.
  induction text as [|c text IH]; simpl; [done|].
  intros [Hc Htext]%andb_prop. apply negb_true_iff in Hc.
  by rewrite (escape_latex_plain_char c Hc), IH.
Qed.

Lemma startswith_app_r (s b p : str) :
  startswith s p = true -> startswith (s ++ b) p = true.
Proof.
  rewrite !startswith_spec. intros [post ->]. exists (post ++ b).
  by rewrite app_assoc.
Qed.

Lemma bs_followed_app (tail a b : str) :
  bs_followed tail a = true -> bs_followed tail b = true ->
  bs_followed tail (a ++ b) = true.
Proof.
  induction a as [|c a IH]; simpl; [done|]. intros [Hc Ha]%andb_prop Hb.
  rewrite (IH Ha Hb), andb_true_r.
  destruct (N.eqb c BACKSLASH); [|done]. by apply startswith_app_r.
Qed.

Lemma bs_followed_replace (s : str) :
  bs_followed (lit "textbackslash{}")
              (replace BACKSLASH (lit "\textbackslash{}") s) = true.
Proof.
  induction s as [|d s IH]; simpl; [done|].
  destruct (N.eqb d BACKSLASH) eqn:E.
  - apply bs_followed_app; [by vm_compute|done].
  - simpl. by rewrite E, IH.
Qed.

Lemma bs_followed_suffix (tail pre s : str) :
  bs_followed tail (pre ++ s) = true -> bs_followed tail s = true.
Proof.
  induction pre as [|c pre IH]; simpl; [done|].
  intros [_ Hrest]%andb_prop. by apply IH.
Qed.

(** X3: in the result every backslash is the start of
    [\textbackslash{}]; no escape such as [\&], [\%] or [\$] is ever in
    the result, whatever the text. *)
Theorem escape_latex_backslashes (text : str) :
  (forall pre post : str,
      escape_latex text = pre ++ BACKSLASH :: post ->
      exists rest, post = lit "textbackslash{}" ++ rest)
  /\ (forall c : char,
        c <> chr "t" -> contains (escape_latex text) [BACKSLASH; c] = false).
Proof.
  assert (forall pre post : str,
             escape_latex text = pre ++ BACKSLASH :: post ->
             exists rest, post = lit "textbackslash{}" ++ rest) as Hbs.
  { intros pre post Heq.
    pose proof (bs_followed_replace
                  (fold_left (fun text '(c, r) => replace c r text)
                             (removelast latex_special_chars) text)) as Hok.
    change (replace BACKSLASH (lit "\textbackslash{}")
              (fold_left (fun text '(c, r) => replace c r text)
                         (removelast latex_special_chars) text))
      with (escape_latex text) in Hok.
    rewrite Heq in Hok. apply bs_followed_suffix in Hok.
    simpl in Hok. apply andb_prop in Hok as [Hok _].
    by apply startswith_spec in Hok. }
  split; [done|].
  intros c Hc. apply not_true_is_false. intros Hin.
  apply contains_spec in Hin as (pre & post & Heq).
  apply Hbs in Heq as [rest Heq]. simpl in Heq.
  apply Hc. by injection Heq.
Qed.

Lemma count_char_app (c : char) (a b : str) :
  count_char c (a ++ b) = (count_char c a + count_char c b)%nat.
Proof. unfold count_char. by rewrite List.filter_app, length_app. Qed.

(** X4: the characters [&], [%], [$], [#] and [_] of the text all stay
    in the result, and no other is added: each occurs as often in the
    result as in the text. *)
Theorem escape_latex_keeps_specials (text : str) (c : char) :
  In c [chr "&"; chr "%"; chr "$"; chr "#"; chr "_"] ->
  count_char c (escape_latex text) = count_char c text.
Proof.
  intros Hc. rewrite escape_latex_flat_map.
  induction text as [|d text IH]; [done|].
  simpl flat_map. rewrite count_char_app, IH.
  change (d :: text) with ([d] ++ text). rewrite (count_char_app c [d]).
  f_equal. clear IH.
  destruct (is_special d) eqn:Hd.
  - apply is_special_cases in Hd. simpl in Hc, Hd.
    repeat match goal with
           | H : _ \/ _ |- _ => destruct H as [<-|H]
           | H : False |- _ => destruct H
           end; reflexivity.
  - by rewrite escape_latex_plain_char.
Qed.

End EscapeFacts.

Lemma escape_latex_keeps_specials_witness :
  In (chr "%") [chr "&"; chr "%"; chr "$"; chr "#"; chr "_"]
  /\ count_char (chr "%") (escape_latex (lit "100% & 50%")) = 2%nat.
Proof.
  assert (In (chr "%") [chr "&"; chr "%"; chr "$"; chr "#"; chr "_"]) as Hin
    by (right; left; reflexivity).
  split; [exact Hin|].
  exact (escape_latex_keeps_specials (lit "100% & 50%") (chr "%") Hin).
Defined.

Lemma escape_latex_plain_witness :
  forallb (fun c => negb (is_special c)) (lit "Plain text, 100 m.") = true
  /\ escape_latex (lit "Plain text, 100 m.") = lit "Plain text, 100 m.".
Proof.
  split; [reflexivity|].
  exact (escape_latex_plain (lit "Plain text, 100 m.") eq_refl).
Defined.

(** ** Stripping *)

Section StripFacts.

Lemma lstrip_app (a b : str) :
  lstrip (a ++ b)
  = match lstrip a with
    | [] => lstrip b
    | _ :: _ => lstrip a ++ b
    end.
Proof.
  induction a as [|c a IH]; simpl; [by destruct (lstrip b)|].
  by destruct (isspace c).
Qed.

Lemma lstrip_length (s : str) : (length (lstrip s) <= length s)%nat.
Proof.
  induction s as [|c s IH]; simpl; [done|].
  destruct (isspace c); simpl; lia.
Qed.

Lemma lstrip_head (s : str) :
  match lstrip s with
  | [] => True
  | c :: _ => isspace c = false
  end.
Proof.
  induction s as [|c s IH]; simpl; [done|].
  by destruct (isspace c) eqn:E.
Qed.

Lemma lstrip_fixed (c : char) (s : str) :
  isspace c = false -> lstrip (c :: s) = c :: s.
Proof. intros Hc. simpl. by rewrite Hc. Qed.

Lemma lstrip_idemp (s : str) : lstrip (lstrip s) = lstrip s.
Proof.
  pose proof (lstrip_head s) as Hh. destruct (lstrip s) as [|c r]; [done|].
  by apply lstrip_fixed.
Qed.

Lemma rstrip_snoc_space (s : str) (c : char) :
  isspace c = true -> rstrip (s ++ [c]) = rstrip s.
Proof. intros Hc. unfold rstrip. rewrite rev_unit. simpl. by rewrite Hc. Qed.

Lemma rstrip_snoc_other (s : str) (c : char) :
  isspace c = false -> rstrip (s ++ [c]) = s ++ [c].
Proof.
  intros Hc. unfold rstrip. rewrite rev_unit, lstrip_fixed by done.
  simpl. by rewrite rev_involutive.
Qed.

Lemma rstrip_idemp (s : str) : rstrip (rstrip s) = rstrip s.
Proof. unfold rstrip. by rewrite rev_involutive, lstrip_idemp. Qed.

(** Stripping on the right keeps a first character that is not white. *)
Lemma rstrip_cons_other (c : char) (s : str) :
  isspace c = false -> exists r, rstrip (c :: s) = c :: r.
Proof.
  intros Hc. unfold rstrip. simpl rev. rewrite lstrip_app.
  destruct (lstrip (rev s)) as [|d r] eqn:E.
  - rewrite lstrip_fixed by done. by exists [].
  - exists (rev (d :: r)). by rewrite rev_unit.
Qed.

Lemma strip_head (s : str) :
  match strip s with
  | [] => True
  | c :: _ => isspace c = false
  end.
Proof.
  unfold strip. pose proof (lstrip_head s) as Hh.
  destruct (lstrip s) as [|c r]; [done|].
  destruct (rstrip_cons_other c r Hh) as [r' ->]. done.
Qed.

Lemma strip_idemp (s : str) : strip (strip s) = strip s.
Proof.
  pose proof (strip_head s) as Hh. unfold strip at 1.
  destruct (strip s) as [|c r] eqn:E; [done|].
  rewrite lstrip_fixed by done. rewrite <- E. unfold strip.
  apply rstrip_idemp.
Qed.

Lemma strip_cons_space (c : char) (s : str) :
  isspace c = true -> strip (c :: s) = strip s.
Proof. intros Hc. unfold strip. simpl. by rewrite Hc. Qed.

Lemma strip_snoc_space (s : str) (c : char) :
  isspace c = true -> strip (s ++ [c]) = strip s.
Proof.
  intros Hc. unfold strip. rewrite lstrip_app.
  destruct (lstrip s) as [|d r] eqn:E.
  - simpl. by rewrite Hc.
  - by apply rstrip_snoc_space.
Qed.

Lemma lstrip_Forall (P : char -> Prop) (s : str) :
  Forall P s -> Forall P (lstrip s).
Proof.
  induction 1 as [|c s Hc Hs IH]; simpl; [done|].
  destruct (isspace c); [done|by constructor].
Qed.

Lemma strip_Forall (P : char -> Prop) (s : str) :
  Forall P s -> Forall P (strip s).
Proof.
  intros Hs. unfold strip, rstrip.
  apply Forall_rev, lstrip_Forall, Forall_rev. by apply lstrip_Forall.
Qed.

Lemma split_Forall_no_sep (sep : char) (s : str) :
  Forall (Forall (fun c => c <> sep)) (split sep s).
Proof.
  induction s as [|d s IH]; simpl; [by repeat constructor|].
  destruct (N.eqb_spec d sep) as [->|Hne]; [by constructor|].
  pose proof (split_not_nil sep s) as Hnil.
  destruct (split sep s) as [|f fs]; [done|].
  inversion IH; subst. constructor; [by constructor|done].
Qed.

End StripFacts.

(** ** More on the classifier *)

Section ClassifierInvariants.
Context `{UnicodeData}.

Lemma identify_structure_lines (text : str) :
  identify_structure text
  = List.map (fun line => classify line []) (nonempty_stripped_lines text).
Proof. rewrite identify_structure_map. by apply List.map_ext. Qed.

Lemma nonempty_stripped_lines_cons_space (c : char) (text : str) :
  isspace c = true ->
  nonempty_stripped_lines (c :: text) = nonempty_stripped_lines text.
Proof.
  intros Hc. unfold nonempty_stripped_lines. simpl split.
  destruct (N.eqb c NL); [done|].
  pose proof (split_not_nil NL text) as Hnil.
  destruct (split NL text) as [|f fs]; [done|].
  simpl. by rewrite (strip_cons_space c f Hc).
Qed.

Lemma split_snoc_other (sep c : char) (text : str) :
  c <> sep ->
  exists init l, split sep text = init ++ [l]
                 /\ split sep (text ++ [c]) = init ++ [l ++ [c]].
Proof.
  intros Hc. induction text as [|d text (init & l & Hs & Hs')]; simpl.
  - exists [], []. apply N.eqb_neq in Hc. by rewrite Hc.
  - rewrite Hs, Hs'. destruct (N.eqb d sep).
    + by exists ([] :: init), l.
    + destruct init as [|f init]; simpl.
      * by exists [], (d :: l).
      * by exists ((d :: f) :: init), l.
Qed.

Lemma nonempty_stripped_lines_snoc_space (text : str) (c : char) :
  isspace c = true ->
  nonempty_stripped_lines (text ++ [c]) = nonempty_stripped_lines text.
Proof.
  intros Hc. destruct (N.eq_dec c NL) as [->|Hne].
  - rewrite nonempty_stripped_lines_app. unfold nonempty_stripped_lines at 2.
    simpl. by rewrite app_nil_r.
  - destruct (split_snoc_other NL c text Hne) as (init & l & Hs & Hs').
    unfold nonempty_stripped_lines. rewrite Hs, Hs'.
    rewrite !List.map_app, !List.filter_app. simpl.
    by rewrite (strip_snoc_space l c Hc).
Qed.

Lemma nonempty_stripped_lines_lstrip (text : str) :
  nonempty_stripped_lines (lstrip text) = nonempty_stripped_lines text.
Proof.
  induction text as [|c text IH]; simpl; [done|].
  destruct (isspace c) eqn:E; [|done].
  by rewrite nonempty_stripped_lines_cons_space.
Qed.

Lemma nonempty_stripped_lines_rstrip (text : str) :
  nonempty_stripped_lines (rstrip text) = nonempty_stripped_lines text.
Proof.
  induction text as [|c text IH] using rev_ind; [done|].
  destruct (isspace c) eqn:E.
  - by rewrite rstrip_snoc_space, nonempty_stripped_lines_snoc_space.
  - by rewrite rstrip_snoc_other.
Qed.

(** X5: white space at the two ends of the whole text has no effect on
    the blocks: the classifier gives the same blocks for a text and for
    the stripped text. *)
Theorem identify_structure_strip (text : str) :
  identify_structure (strip text) = identify_structure text.
Proof.
  rewrite !identify_structure_lines. unfold strip.
  by rewrite nonempty_stripped_lines_rstrip, nonempty_stripped_lines_lstrip.
Qed.

(** X6: a text made of white space only, the empty text included, gives
    no block. *)
Theorem identify_structure_blank (text : str) :
  forallb isspace text = true -> identify_structure text = [].
Proof.
  rewrite identify_structure_lines.
  induction text as [|c text IH]; [done|]. simpl.
  intros [Hc Htext]%andb_prop.
  rewrite nonempty_stripped_lines_cons_space by done. by apply IH.
Qed.

Lemma nonempty_stripped_lines_elem (text line : str) :
  In line (nonempty_stripped_lines text) ->
  line <> [] /\ strip line = line /\ Forall (fun c => c <> NL) line.
Proof.
  unfold nonempty_stripped_lines.
  intros [Hin Hne]%List.filter_In. apply List.in_map_iff in Hin as (l & <- & Hl).
  split; [|split].
  - apply negb_true_iff in Hne. by apply bool_decide_eq_false in Hne.
  - apply strip_idemp.
  - apply strip_Forall.
    pose proof (split_Forall_no_sep NL text) as Hall.
    rewrite Forall_forall in Hall. apply Hall. by apply list_elem_of_In.
Qed.

Lemma clean_bullet_text_stripped (line : str) :
  strip (clean_bullet_text line) = clean_bullet_text line
  /\ (Forall (fun c => c <> NL) line ->
      Forall (fun c => c <> NL) (clean_bullet_text line)).
Proof.
  unfold clean_bullet_text. split; [apply strip_idemp|].
  intros Hline. apply strip_Forall.
  pose proof (lstrip_Forall _ line Hline) as Hl.
  destruct (lstrip line) as [|c rest]; [done|].
  destruct (is_bullet_glyph c); [|done].
  apply lstrip_Forall. by inversion Hl.
Qed.

(** X7: every block the classifier gives has one of the six tags; its
    text holds no newline and has no white space at its ends; and the
    text of a block that is not a bullet is not empty. *)
Theorem identify_structure_blocks (text : str) (content_type content : str) :
  In (content_type, content) (identify_structure text) ->
  In content_type content_types
  /\ Forall (fun c => c <> NL) content
  /\ strip content = content
  /\ (content_type <> lit "bullet1" -> content_type <> lit "bullet2" ->
      content <> []).
Proof.
  rewrite identify_structure_lines.
  intros (line & Hblock & Hline)%List.in_map_iff.
  apply nonempty_stripped_lines_elem in Hline as (Hne & Hstrip & Hnl).
  destruct (clean_bullet_text_stripped line) as [Hcs Hcn].
  unfold classify in Hblock.
  repeat case_match; injection Hblock as <- <-;
    (split; [unfold content_types; simpl; tauto|]);
    (split; [by auto|]); (split; [done|]); by intros.
Qed.

(** X8: on a stripped line the secondary-bullet test is the test for a
    leading white circle; the two alternatives with leading spaces
    never hold. *)
Theorem is_secondary_bullet_stripped (line : str) :
  is_secondary_bullet (strip line) = startswith (strip line) [WHITE_CIRCLE]
  /\ startswith (strip line) (lit "  " ++ [WHITE_CIRCLE]) = false
  /\ startswith (strip line) (lit "    " ++ [WHITE_CIRCLE]) = false.
Proof.
  pose proof (strip_head line) as Hh. unfold is_secondary_bullet.
  destruct (strip line) as [|c r].
  - by vm_compute.
  - assert (N.eqb 32 c = false) as Hc.
    { apply N.eqb_neq. intros <-. by vm_compute in Hh. }
    change (lit "  " ++ [WHITE_CIRCLE])
      with (32%N :: 32%N :: [WHITE_CIRCLE]).
    change (lit "    " ++ [WHITE_CIRCLE])
      with (32%N :: 32%N :: 32%N :: 32%N :: [WHITE_CIRCLE]).
    cbn [startswith]. rewrite Hc. simpl. by rewrite !orb_false_r.
Qed.

End ClassifierInvariants.

Lemma identify_structure_blank_witness :
  forallb isspace (lit "
   ") = true
  /\ identify_structure (lit "
   ") = [].
Proof.
  split; [reflexivity|].
  exact (identify_structure_blank (lit "
   ") eq_refl).
Defined.

Lemma identify_structure_blocks_witness :
  In (lit "bullet1", lit "item one")
     (identify_structure (lit "Intro
  - item one  "))
  /\ strip (lit "item one") = lit "item one".
Proof.
  assert (In (lit "bullet1", lit "item one")
             (identify_structure (lit "Intro
  - item one  "))) as Hin by (right; left; reflexivity).
  split; [exact Hin|].
  exact (proj1 (proj2 (proj2 (identify_structure_blocks _ _ _ Hin)))).
Defined.

(** ** More on the log parser *)

Section LogParserEdges.

Lemma startswith_contains (s p q : str) (pre post : str) :
  p = pre ++ q ++ post -> startswith s p = true -> contains s q = true.
Proof.
  intros -> [rest ->]%startswith_spec. apply contains_spec.
  exists pre, (post ++ rest). by rewrite <- !app_assoc.
Qed.

(** X9: a line is a warning line exactly when it holds [Warning:]; the
    second test, for a line that starts with [LaTeX Warning:], adds
    nothing. *)
Theorem is_warning_line_contains (line : str) :
  is_warning_line line = contains line (lit "Warning:").
Proof.
  unfold is_warning_line.
  destruct (contains line (lit "Warning:")) eqn:Hc; [done|]. simpl.
  apply not_true_is_false. intros Hs.
  apply (startswith_contains line (lit "LaTeX Warning:") (lit "Warning:")
           (lit "LaTeX ") []) in Hs; [congruence|reflexivity].
Qed.

Lemma error_indices_nil (i : nat) (rest : list str) :
  forallb (fun l => negb (is_error_line l)) rest = true ->
  error_indices i rest = [].
Proof.
  revert i. induction rest as [|l rest IH]; intros i; simpl; [done|].
  intros [Hl Hrest]%andb_prop. apply negb_true_iff in Hl. rewrite Hl.
  by apply IH.
Qed.

(** X10: when no line of the log starts with [!] or holds [Error:], the
    parser finds no error, and the message of a failed compilation with
    an empty standard error has no diagnostic part: it is the fixed
    first line, followed by the pointer to the log when the log is not
    empty. *)
Theorem no_fatal_line_no_diagnostic (log : str) :
  forallb (fun l => negb (is_error_line l)) (split NL log) = true ->
  fst (_parse_latex_errors log) = []
  /\ error_msg (fst (_parse_latex_errors log)) [] log
     = lit "LaTeX compilation failed!" ++ [NL; NL]
       ++ (if bool_decide (log = []) then []
           else lit "For full details, check the log output above.").
Proof.
  intros Hlog. rewrite parse_latex_errors_spec. cbn [fst].
  rewrite error_indices_nil by done. split; [done|].
  unfold error_msg.
  rewrite !(bool_decide_eq_true_2 (@nil str = [])) by done.
  case_bool_decide; [by rewrite !app_nil_r|]. by rewrite <- app_assoc.
Qed.

(** X11: a log that asks for another pass still does so when any text
    is put before or after it. *)
Theorem needs_multiple_passes_monotone (before log after : str) :
  _needs_multiple_passes log = true ->
  _needs_multiple_passes (before ++ log ++ after) = true.
Proof.
  unfold _needs_multiple_passes. rewrite !existsb_exists.
  intros (indicator & Hin & Hc). exists indicator. split; [done|].
  by apply contains_app_l, contains_app_r.
Qed.

End LogParserEdges.

Lemma no_fatal_line_no_diagnostic_witness :
  forallb (fun l => negb (is_error_line l)) (split NL clean_log) = true
  /\ fst (_parse_latex_errors clean_log) = [].
Proof.
  split; [reflexivity|].
  exact (proj1 (no_fatal_line_no_diagnostic clean_log eq_refl)).
Defined.

Lemma needs_multiple_passes_monotone_witness :
  _needs_multiple_passes (lit "Rerun LaTeX") = true
  /\ _needs_multiple_passes
       (lit "Package: " ++ lit "Rerun LaTeX" ++ lit ".") = true.
Proof.
  split; [reflexivity|].
  exact (needs_multiple_passes_monotone (lit "Package: ") (lit "Rerun LaTeX")
           (lit ".") eq_refl).
Defined.

(** ** More on the pass loop *)

Section PassLoopBounds.
Variable subprocess_run : str -> Z -> gmap str str -> run_result.

Lemma pass_loop_passes_run_le (self : t) (log_file : str) (max_passes : Z)
    (passes : list Z) (st : loop_state) :
  (passes_run (fst (pass_loop subprocess_run self log_file max_passes
                              passes st))
   <= passes_run st + length passes)%nat.
Proof.
  revert st. induction passes as [|pass_num rest IH]; intros st; simpl.
  - lia.
  - unfold _run_latex_command.
    destruct (subprocess_run _ _ _) as [d'|e d'|returncode stderr d'];
      simpl; try lia.
    destruct (returncode =? 0); simpl.
    + destruct (_ && _); simpl; [|lia].
      etrans; [apply IH|]. simpl. lia.
    + destruct (d' !! log_file) as [text|].
      * destruct (_parse_latex_errors text). simpl. lia.
      * destruct (_parse_latex_errors []). simpl. lia.
Qed.

Lemma range_length (a b : Z) : length (range a b) = Z.to_nat (b - a).
Proof. unfold range. by rewrite List.length_map, length_seq. Qed.

(** X12: the engine is started at most [max_passes] times, and it is
    not started at all exactly when [max_passes] is zero or negative. *)
Theorem pass_loop_at_most_max_passes (self : t) (log_file : str)
    (max_passes : Z) (d : gmap str str) :
  let n := passes_run (fst (pass_loop subprocess_run self log_file max_passes
                                      (range 1 (max_passes + 1))
                                      (LoopState d None 0))) in
  (n <= Z.to_nat max_passes)%nat /\ (n = 0%nat <-> max_passes <= 0).
Proof.
  intros n. split.
  - pose proof (pass_loop_passes_run_le self log_file max_passes
                  (range 1 (max_passes + 1)) (LoopState d None 0)) as Hle.
    rewrite range_length in Hle. simpl in Hle. subst n. lia.
  - split.
    + intros Hn. destruct (decide (max_passes <= 0)) as [|Hpos]; [done|].
      subst n. rewrite range_cons in Hn by lia.
      pose proof (pass_loop_passes_run_cons subprocess_run self log_file
                    max_passes 1 (range (1 + 1) (max_passes + 1))
                    (LoopState d None 0)) as Hge.
      simpl passes_run in Hge at 1. lia.
    + intros Hmax. subst n. by rewrite range_nil by lia.
Qed.

(** X13: a pass on which the engine does not finish in time, or cannot
    be started, ends the loop at once with the matching exception; the
    log read on an earlier pass stays as it was. *)
Theorem pass_loop_engine_failure (self : t) (log_file : str)
    (max_passes k : Z) (st : loop_state) :
  k <= max_passes ->
  (forall d', subprocess_run (engine self) k (dir st) = TimeoutExpired d' ->
     pass_loop subprocess_run self log_file max_passes
               (range k (max_passes + 1)) st
     = (LoopState d' (log_content st) (S (passes_run st)),
        Some (Exception (lit "LaTeX compilation timed out (5 minutes)"))))
  /\ (forall e d', subprocess_run (engine self) k (dir st) = RunError e d' ->
        pass_loop subprocess_run self log_file max_passes
                  (range k (max_passes + 1)) st
        = (LoopState d' (log_content st) (S (passes_run st)),
           Some (Exception (lit "Failed to run " ++ engine self ++ lit ": "
                            ++ e)))).
Proof.
  intros Hk. split; intros; rewrite range_cons by lia; simpl;
    unfold _run_latex_command; by rewrite H.
Qed.

End PassLoopBounds.

Lemma pass_loop_engine_failure_witness :
  1 <= 3
  /\ pass_loop engine_hanging pdflatex (lit "paper.log") 3 (range 1 (3 + 1))
               (LoopState ∅ None 0)
     = (LoopState ∅ None 1,
        Some (Exception (lit "LaTeX compilation timed out (5 minutes)"))).
Proof.
  assert (1 <= 3) as Hk by lia. split; [exact Hk|].
  exact (proj1 (pass_loop_engine_failure engine_hanging pdflatex
                  (lit "paper.log") 3 1 (LoopState ∅ None 0) Hk)
               ∅ eq_refl).
Defined.

(** ** The choice of the engine *)

Section EngineChoice.
Variable which : str -> bool.

Lemma filter_first {A : Type} (p : A -> bool) (l : list A) (x : A)
    (rest : list A) :
  List.filter p l = x :: rest ->
  p x = true
  /\ exists before after, l = before ++ x :: after
                          /\ forallb (fun y => negb (p y)) before = true.
Proof.
  induction l as [|y l IH]; simpl; [done|].
  destruct (p y) eqn:E.
  - intros [= -> _]. split; [done|]. by exists [], l.
  - intros (Hx & before & after & -> & Hb)%IH. split; [done|].
    exists (y :: before), after. simpl. by rewrite E, Hb.
Qed.

(** X14: when the check returns a converter, its engine is one that is
    found on the machine; the engine asked for is kept when it is
    found, and otherwise the first of pdflatex, xelatex, lualatex that is
    found is taken; the two flags are kept. The check fails exactly when
    neither the engine asked for nor any of the three is found. *)
Theorem check_latex_installation_engine (self : t) :
  match _check_latex_installation which self with
  | inr self' =>
      which (engine self') = true
      /\ cleanup self' = cleanup self /\ verbose self' = verbose self
      /\ (which (engine self) = true -> self' = self)
      /\ (which (engine self) = false ->
          exists before after,
            supported_engines = before ++ engine self' :: after
            /\ forallb (fun eng => negb (which eng)) before = true)
  | inl _ =>
      which (engine self) = false
      /\ forallb (fun eng => negb (which eng)) supported_engines = true
  end.
Proof.
  unfold _check_latex_installation.
  destruct (which (engine self)) eqn:Hw; cbn [negb].
  - by repeat split.
  - destruct (List.filter which supported_engines) as [|eng rest] eqn:Hf;
      cbn beta iota.
    + split; [done|].
      apply forallb_forall. intros eng Hin. apply negb_true_iff.
      destruct (which eng) eqn:He; [|done].
      assert (In eng (List.filter which supported_engines)) as Hin'
        by (by apply List.filter_In).
      by rewrite Hf in Hin'.
    + apply filter_first in Hf as (Heng & before & after & Heq & Hb).
      simpl. repeat split; try done. intros _. by exists before, after.
Qed.

End EngineChoice.

(** ** More on the compiler driver *)

Section DriverEdges.
Context `{UnicodeData}.
Variable subprocess_run : str -> Z -> gmap str str -> run_result.
Variable can_write : Path -> bool.

Lemma world_eta (w : world) : World (fs w) (temp_dirs w) = w.
Proof. by destruct w. Qed.

Lemma temp_dir_removed (temps : gmap positive (gmap str str))
    (tmp : positive) (d : gmap str str) :
  temps !! tmp = None ->
  delete tmp (<[tmp := d]> (<[tmp := ∅]> temps)) = temps
  /\ delete tmp (<[tmp := ∅]> temps) = temps.
Proof.
  intros Hfresh. split.
  - by rewrite insert_insert_eq, delete_insert_id.
  - by rewrite delete_insert_id.
Qed.



(** X16: with [max_passes] zero or negative the engine is never
    started: the call does the same whatever the engine would do, and a
    verbose call cannot succeed. *)
Theorem convert_to_pdf_no_pass
    (other_run : str -> Z -> gmap str str -> run_result)
    (self : t) (tex_file : Path) (output_pdf : option Path)
    (max_passes : Z) (w : world) :
  max_passes <= 0 ->
  convert_to_pdf subprocess_run can_write self tex_file output_pdf
                 max_passes w
  = convert_to_pdf other_run can_write self tex_file output_pdf max_passes w
  /\ (verbose self = true ->
      forall p, snd (convert_to_pdf subprocess_run can_write self tex_file
                                    output_pdf max_passes w) <> inr p).
Proof.
  intros Hmax.
  assert (forall out tmp w0,
    compile_in subprocess_run can_write self tex_file out max_passes tmp w0
    = compile_in other_run can_write self tex_file out max_passes tmp w0)
    as Hsame.
  { intros out tmp w0. unfold compile_in. by rewrite range_nil by lia. }
  assert (forall out tmp w0 p,
    verbose self = true ->
    snd (compile_in subprocess_run can_write self tex_file out max_passes
                    tmp w0) <> inr p) as Hverbose.
  { intros out tmp w0 p Hv. unfold compile_in.
    rewrite range_nil by lia. simpl pass_loop. cbv zeta. rewrite Hv.
    cbn [log_content dir].
    destruct (fs w0 !! tex_file) as [[tex|]|]; [|done..].
    destruct (with_suffix tex_file (lit ".log")); [|done].
    destruct (with_suffix tex_file (lit ".pdf")); [|done].
    destruct (_ !! _); [|done]. by destruct (can_write _). }
  split.
  - unfold convert_to_pdf, with_TemporaryDirectory.
    repeat case_match; try done; rewrite Hsame in *; congruence.
  - intros Hv p. unfold convert_to_pdf.
    repeat case_match; try done; rewrite with_TemporaryDirectory_snd;
      by apply Hverbose.
Qed.

End DriverEdges.

(** ** Files copied beside the source *)

Section CopyFacts.
Context `{UnicodeData}.

Lemma copy_lookup (files : gmap (str * str) node)
    (source_dir : str) (dest_dir : gmap str str) (n : str) :
  _copy_additional_files files source_dir dest_dir !! n
  = match files !! (source_dir, n) with
    | Some (File content) =>
        if existsb (eqb (lower (suffix (source_dir, n)))) extensions_to_copy
        then Some content
        else dest_dir !! n
    | _ => dest_dir !! n
    end.
Proof.
  unfold _copy_additional_files. revert n.
  apply (map_fold_weak_ind
           (fun (r : gmap str str) (m : gmap (str * str) node) =>
              forall n,
                r !! n
                = match m !! (source_dir, n) with
                  | Some (File content) =>
                      if existsb (eqb (lower (suffix (source_dir, n))))
                                 extensions_to_copy
                      then Some content
                      else dest_dir !! n
                  | _ => dest_dir !! n
                  end)).
  - intros n. by rewrite lookup_empty.
  - intros [dir nm] x m r Hfresh IH n.
    destruct (decide ((dir, nm) = (source_dir, n))) as [[= -> ->]|Hne].
    + rewrite lookup_insert_eq. specialize (IH n). rewrite Hfresh in IH.
      destruct x as [content|]; [|done].
      unfold parent, name. cbn [fst snd].
      rewrite bool_decide_eq_true_2 by done. cbn [andb].
      destruct (existsb _ _); [by rewrite lookup_insert_eq|done].
    + rewrite lookup_insert_ne by done. rewrite <- IH.
      destruct x as [content|]; [|done].
      unfold parent, name. cbn [fst snd].
      destruct (bool_decide (dir = source_dir)) eqn:Hd; [|done].
      apply bool_decide_eq_true in Hd as ->. cbn [andb].
      destruct (existsb _ _); [|done].
      apply lookup_insert_ne. congruence.
Qed.

(** X17: [_copy_additional_files] puts under a name the text of the
    regular file of that name in the source directory when its
    lower-cased suffix is in the list, and leaves every other name of
    the destination as it was. *)
Theorem copy_additional_files_lookup (files : gmap (str * str) node)
    (source_dir : str) (dest_dir : gmap str str) (n : str) :
  _copy_additional_files files source_dir dest_dir !! n
  = match files !! (source_dir, n) with
    | Some (File content) =>
        if existsb (eqb (lower (suffix (source_dir, n)))) extensions_to_copy
        then Some content
        else dest_dir !! n
    | _ => dest_dir !! n
    end.
Proof. apply copy_lookup. Qed.

Lemma lower_nil : lower [] = [].
Proof. by rewrite lower_ascii. Qed.

Lemma with_suffix_stem (p : Path) (s : str) :
  suffix p <> [] ->
  exists stem, stem <> [] /\ with_suffix p s = Some (parent p, stem ++ s).
Proof.
  unfold with_suffix. unfold suffix at 1 2.
  set (i := rfind (chr ".") (name p)).
  destruct ((0 <? i) && (i <? len (name p) - 1)) eqn:Hc; [|done].
  intros _. apply andb_prop in Hc as [Hi Hlen].
  apply Z.ltb_lt in Hi, Hlen. unfold len in Hlen.
  rewrite bool_decide_eq_false_2
    by (intros Hn; rewrite Hn in Hlen; simpl in Hlen; lia).
  eexists. split; [|done].
  intros Hnil. apply (f_equal (@length N)) in Hnil.
  rewrite length_take, length_drop in Hnil. simpl in Hnil. lia.
Qed.

Section IdleEngine.
Variable subprocess_run : str -> Z -> gmap str str -> run_result.
Variable can_write : Path -> bool.

(** The loop, for an engine that exits with code 0 and touches
    nothing. *)
Lemma pass_loop_idle (self : t) (log_file : str) (max_passes : Z)
    (passes : list Z) (st : loop_state) :
  (forall k d, subprocess_run (engine self) k d = CompletedProcess 0 [] d) ->
  let result := pass_loop subprocess_run self log_file max_passes passes st in
  snd result = None
  /\ dir (fst result) = dir st
  /\ (passes <> [] \/ is_Some (log_content st) ->
      is_Some (log_content (fst result))).
Proof.
  intros Hidle. revert st.
  induction passes as [|k rest IH]; intros st; simpl.
  - split; [done|]. split; [done|]. by intros [|].
  - unfold _run_latex_command. rewrite Hidle. simpl.
    destruct (_ && _).
    + destruct (IH (LoopState (dir st)
                      (Some match dir st !! log_file with
                            | Some text => text
                            | None => []
                            end) (S (passes_run st))))
        as (Hnone & Hdir & Hlog).
      split; [done|]. split; [done|]. intros _. apply Hlog. right. by eexists.
    + simpl. split; [done|]. split; [done|]. by eexists.
Qed.

(** X18: when a PDF with the name of the output already lies beside the
    source, it is copied into the temporary directory with the other
    files, so a run in which the engine exits with code 0 and writes
    nothing is reported as a success: the call returns the output path,
    and the old PDF is what is found there. *)
Theorem stale_pdf_reported_as_success (self : t) (tex_file pdf_path : Path)
    (tex stale : str) (max_passes : Z) (w : world) :
  fs w !! tex_file = Some (File tex) ->
  lower (suffix tex_file) = lit ".tex" ->
  with_suffix tex_file (lit ".pdf") = Some pdf_path ->
  fs w !! pdf_path = Some (File stale) ->
  (forall k d, subprocess_run (engine self) k d = CompletedProcess 0 [] d) ->
  1 <= max_passes ->
  can_write pdf_path = true ->
  convert_to_pdf subprocess_run can_write self tex_file None max_passes w
  = (w, inr pdf_path).
Proof.
  intros Htex Hsuffix Hpdf Hstale Hidle Hmax Hwrite.
  assert (suffix tex_file <> []) as Hne.
  { intros Hnil. rewrite Hnil, lower_nil in Hsuffix. by vm_compute in Hsuffix. }
  destruct (with_suffix_stem tex_file (lit ".pdf") Hne) as (stem & Hstem & Hp).
  destruct (with_suffix_stem tex_file (lit ".log") Hne) as (stem' & _ & Hl).
  rewrite Hpdf in Hp. injection Hp as ->.
  unfold convert_to_pdf.
  rewrite bool_decide_eq_true_2 by (by eexists). cbn [negb].
  rewrite Hsuffix. unfold eqb at 1. rewrite bool_decide_eq_true_2 by done.
  cbn [negb]. rewrite Hpdf.
  unfold with_TemporaryDirectory.
  set (tmp := fresh (dom (temp_dirs w))).
  assert (temp_dirs w !! tmp = None) as Hfresh
    by apply not_elem_of_dom, is_fresh.
  unfold compile_in. cbn [fs temp_dirs]. rewrite Htex, Hl, Hpdf.
  set (d1 := _copy_additional_files (fs w) (parent tex_file)
               (<[name tex_file := tex]> ∅)).
  assert (d1 !! (stem ++ lit ".pdf") = Some stale) as Hd1.
  { subst d1. rewrite copy_lookup.
    change (parent tex_file, stem ++ lit ".pdf")
      with (parent tex_file, stem ++ chr "." :: lit "pdf") in *.
    rewrite Hstale, suffix_stem_ext by done.
    by rewrite lower_ascii by reflexivity. }
  pose proof (pass_loop_idle self (name (parent tex_file, stem' ++ lit ".log"))
                max_passes (range 1 (max_passes + 1)) (LoopState d1 None 0)
                Hidle) as (Hnone & Hdir & Hlog).
  destruct (pass_loop _ _ _ _ _ _) as [st raised]. simpl in Hnone, Hdir, Hlog.
  subst raised. rewrite Hdir.
  change (name (parent tex_file, stem ++ lit ".pdf"))
    with (stem ++ lit ".pdf").
  rewrite Hd1, Hstale, Hwrite.
  assert (is_Some (log_content st)) as [log Hst].
  { apply Hlog. left. rewrite range_cons by lia. done. }
  rewrite Hst.
  assert (forall (b : bool) (x : world * (exn + Path)),
             (if b then x else x) = x) as Hif by (by intros []).
  rewrite Hif. cbn [fs temp_dirs].
  rewrite insert_id by done.
  rewrite (proj1 (temp_dir_removed (temp_dirs w) tmp d1 Hfresh)).
  by rewrite world_eta.
Qed.

End IdleEngine.

Lemma with_suffix_name (p : Path) (s : str) :
  suffix p <> [] ->
  exists stem, name p = stem ++ suffix p
               /\ with_suffix p s = Some (parent p, stem ++ s).
Proof.
  intros Hne. exists (take (length (name p) - length (suffix p)) (name p)).
  split.
  - unfold suffix in *.
    destruct ((0 <? _) && _); [|done].
    rewrite length_drop.
    replace (length (name p) - (length (name p) - Z.to_nat (rfind (chr ".") (name p))))%nat
      with (Nat.min (Z.to_nat (rfind (chr ".") (name p))) (length (name p)))
      by lia.
    assert (Z.to_nat (rfind (chr ".") (name p)) < length (name p))%nat.
    { destruct (decide (Z.to_nat (rfind (chr ".") (name p))
                        < length (name p))%nat); [done|].
      by rewrite drop_ge in Hne by lia. }
    rewrite Nat.min_l by lia. by rewrite take_drop.
  - unfold with_suffix. rewrite bool_decide_eq_false_2; [done|].
    intros Hn. unfold suffix in Hne. rewrite Hn in Hne. by vm_compute in Hne.
Qed.

Section SilentEngine.
Variable subprocess_run : str -> Z -> gmap str str -> run_result.
Variable can_write : Path -> bool.

(** The loop, for an engine that always exits with code 0 and never
    makes a file of a given name. *)
Lemma pass_loop_no_file (self : t) (log_file pdf_file : str)
    (max_passes : Z) (passes : list Z) (st : loop_state) :
  (forall k d, d !! pdf_file = None ->
     exists stderr d',
       subprocess_run (engine self) k d = CompletedProcess 0 stderr d'
       /\ d' !! pdf_file = None) ->
  dir st !! pdf_file = None ->
  let result := pass_loop subprocess_run self log_file max_passes passes st in
  snd result = None /\ dir (fst result) !! pdf_file = None.
Proof.
  intros Hrun. revert st.
  induction passes as [|k rest IH]; intros st Hst; simpl; [done|].
  unfold _run_latex_command.
  destruct (Hrun k (dir st) Hst) as (stderr & d' & -> & Hd'). simpl.
  destruct (_ && _); [|done]. by apply IH.
Qed.

(** X22: when no PDF with the name of the output lies beside the
    source, and every pass exits with code 0 without making one, the
    call fails with the exception that says that no PDF was created, and
    leaves the world as it was. *)
Theorem no_pdf_written_is_an_error (self : t) (tex_file pdf_path : Path)
    (output_pdf : option Path) (tex : str) (max_passes : Z) (w : world) :
  fs w !! tex_file = Some (File tex) ->
  lower (suffix tex_file) = lit ".tex" ->
  with_suffix tex_file (lit ".pdf") = Some pdf_path ->
  fs w !! pdf_path = None ->
  (forall k d, d !! name pdf_path = None ->
     exists stderr d',
       subprocess_run (engine self) k d = CompletedProcess 0 stderr d'
       /\ d' !! name pdf_path = None) ->
  convert_to_pdf subprocess_run can_write self tex_file output_pdf
                 max_passes w
  = (w, inl (Exception (lit
       "PDF file was not created, but no obvious errors were found"))).
Proof.
  intros Htex Hsuffix Hpdf Hnone Hrun.
  assert (suffix tex_file <> []) as Hne.
  { intros Hnil. rewrite Hnil, lower_nil in Hsuffix. by vm_compute in Hsuffix. }
  destruct (with_suffix_stem tex_file (lit ".log") Hne) as (stem' & _ & Hl).
  destruct (with_suffix_name tex_file (lit ".pdf") Hne) as (stem & Hname & Hp).
  rewrite Hpdf in Hp. injection Hp as ->.
  unfold convert_to_pdf.
  rewrite bool_decide_eq_true_2 by (by eexists). cbn [negb].
  rewrite Hsuffix. unfold eqb at 1. rewrite bool_decide_eq_true_2 by done.
  cbn [negb]. rewrite Hpdf.
  assert (forall out,
    with_TemporaryDirectory
      (compile_in subprocess_run can_write self tex_file out max_passes) w
    = (w, inl (Exception (lit
         "PDF file was not created, but no obvious errors were found"))))
    as Hwith.
  { intros out. unfold with_TemporaryDirectory.
    set (tmp := fresh (dom (temp_dirs w))).
    assert (temp_dirs w !! tmp = None) as Hfresh
      by apply not_elem_of_dom, is_fresh.
    unfold compile_in. cbn [fs temp_dirs]. rewrite Htex, Hl, Hpdf.
    set (d1 := _copy_additional_files (fs w) (parent tex_file)
                 (<[name tex_file := tex]> ∅)).
    assert (d1 !! (stem ++ lit ".pdf") = None) as Hd1.
    { subst d1. rewrite copy_lookup, Hnone.
      apply lookup_insert_None. split; [done|].
      rewrite Hname. intros Heq%app_inv_head.
      rewrite Heq in Hsuffix. rewrite lower_ascii in Hsuffix by reflexivity.
      by vm_compute in Hsuffix. }
    pose proof (pass_loop_no_file self
                  (name (parent tex_file, stem' ++ lit ".log"))
                  (stem ++ lit ".pdf") max_passes (range 1 (max_passes + 1))
                  (LoopState d1 None 0) Hrun Hd1) as [Hraised Hdir].
    destruct (pass_loop _ _ _ _ _ _) as [st raised].
    simpl in Hraised, Hdir. subst raised.
    change (name (parent tex_file, stem ++ lit ".pdf"))
      with (stem ++ lit ".pdf").
    rewrite Hdir. cbn [fs temp_dirs].
    rewrite (proj1 (temp_dir_removed (temp_dirs w) tmp (dir st) Hfresh)).
    by rewrite world_eta. }
  destruct output_pdf; apply Hwith.
Qed.

End SilentEngine.

End CopyFacts.

Lemma stale_pdf_reported_as_success_witness :
  fs stale_world !! paper_tex = Some (File (lit "\documentclass{article}"))
  /\ fs stale_world !! (lit "/home/u/doc", lit "paper.pdf")
     = Some (File (lit "%PDF-old"))
  /\ convert_to_pdf engine_idle (fun _ => true) pdflatex paper_tex None 3
                    stale_world
     = (stale_world, inr (lit "/home/u/doc", lit "paper.pdf")).
Proof.
  split; [reflexivity|]. split; [reflexivity|].
  assert (1 <= 3) as Hmax by lia.
  exact (stale_pdf_reported_as_success engine_idle (fun _ => true) pdflatex
           paper_tex (lit "/home/u/doc", lit "paper.pdf")
           (lit "\documentclass{article}") (lit "%PDF-old") 3 stale_world
           eq_refl eq_refl eq_refl eq_refl (fun _ _ => eq_refl) Hmax eq_refl).
Defined.

Lemma convert_to_pdf_no_pass_witness :
  0 <= 0
  /\ convert_to_pdf engine_failing (fun _ => true) pdflatex paper_tex None 0
                    sample_world
     = convert_to_pdf engine_two_passes (fun _ => true) pdflatex paper_tex
                      None 0 sample_world.
Proof.
  assert (0 <= 0) as Hmax by lia. split; [exact Hmax|].
  exact (proj1 (convert_to_pdf_no_pass engine_failing (fun _ => true)
                  engine_two_passes pdflatex paper_tex None 0 sample_world
                  Hmax)).
Defined.

(** ** The conversion of a PDF *)

Section PipelineFacts.
Context `{UnicodeData}.
Variable pdfplumber_pages : Path -> str + list (option str).
Variable can_open_w : Path -> bool.

Lemma nonempty_stripped_lines_strip (text : str) :
  nonempty_stripped_lines (strip text) = nonempty_stripped_lines text.
Proof.
  unfold strip.
  by rewrite nonempty_stripped_lines_rstrip, nonempty_stripped_lines_lstrip.
Qed.

Lemma nonempty_stripped_lines_pages (pages : list (option str)) (acc : str) :
  acc = [] \/ (exists a, acc = a ++ [NL]) ->
  nonempty_stripped_lines
    (fold_left
       (fun text page_text =>
          match page_text with
          | Some (c :: t) => text ++ (c :: t) ++ [NL; NL]
          | _ => text
          end)
       pages acc)
  = nonempty_stripped_lines acc
    ++ flat_map (fun page => nonempty_stripped_lines (default [] page)) pages.
Proof.
  revert acc. induction pages as [|page pages IH]; intros acc Hacc; simpl.
  - by rewrite app_nil_r.
  - destruct page as [[|c t]|]; simpl; try by rewrite IH.
    rewrite IH.
    + assert (forall x : str,
                 nonempty_stripped_lines (x ++ [NL; NL])
                 = nonempty_stripped_lines x) as Hpage.
      { intros x. change (x ++ [NL; NL]) with (x ++ NL :: [NL]).
        rewrite nonempty_stripped_lines_app.
        change (nonempty_stripped_lines [NL]) with (@nil str).
        by rewrite app_nil_r. }
      assert (nonempty_stripped_lines (acc ++ c :: t ++ [NL; NL])
              = nonempty_stripped_lines acc
                ++ nonempty_stripped_lines (c :: t)) as ->;
        [|by rewrite <- app_assoc].
      change (c :: t ++ [NL; NL]) with ((c :: t) ++ [NL; NL]).
      destruct Hacc as [->|[a ->]].
      * change ([] ++ ?x) with x. by rewrite (Hpage (c :: t)).
      * rewrite <- (app_assoc a [NL]).
        change ([NL] ++ ?x) with (NL :: x).
        rewrite !nonempty_stripped_lines_app.
        change (nonempty_stripped_lines [NL]) with (@nil str).
        change (nonempty_stripped_lines []) with (@nil str).
        by rewrite !app_nil_r.
    + right. exists (acc ++ (c :: t) ++ [NL]).
      by rewrite <- !app_assoc.
Qed.

Lemma identify_structure_pages_text (pages : list (option str)) :
  identify_structure (strip (pages_text pages))
  = flat_map (fun page => identify_structure (default [] page)) pages.
Proof.
  rewrite identify_structure_lines, nonempty_stripped_lines_strip.
  unfold pages_text. rewrite nonempty_stripped_lines_pages by (by left).
  change (nonempty_stripped_lines []) with (@nil str). simpl.
  induction pages as [|page pages IH]; simpl; [done|].
  by rewrite List.map_app, IH, identify_structure_lines.
Qed.

(** X19: the blocks of the extracted text are the blocks of the pages,
    page after page: no block runs over two pages, and a page without
    text gives none. When the PDF cannot be read the exception says so
    and carries the text of the first one. *)
Theorem extract_text_page_by_page (pdf_path : Path) :
  match pdfplumber_pages pdf_path with
  | inr pages =>
      exists text,
        extract_text_from_pdf pdfplumber_pages pdf_path = inr text
        /\ text = strip (pages_text pages)
        /\ identify_structure text
           = flat_map (fun page => identify_structure (default [] page)) pages
  | inl e =>
      extract_text_from_pdf pdfplumber_pages pdf_path
      = inl (Exception (lit "Error reading PDF: " ++ e))
  end.
Proof.
  unfold extract_text_from_pdf.
  destruct (pdfplumber_pages pdf_path) as [e|pages]; [done|].
  eexists. split; [done|]. split; [done|].
  apply identify_structure_pages_text.
Qed.


End PipelineFacts.

(** ** Items and lists *)

Section ItemFacts.

Lemma bs_next_app (ok : char -> bool) (a b : str) :
  bs_next ok a = true -> bs_next ok b = true -> bs_next ok (a ++ b) = true.
Proof.
  induction a as [|c a IH]; simpl; [done|]. intros [Hc Ha]%andb_prop Hb.
  rewrite (IH Ha Hb), andb_true_r.
  destruct (N.eqb c BACKSLASH); [|done]. by destruct a.
Qed.

Lemma bs_followed_next (ok : char -> bool) (t : char) (tail s : str) :
  ok t = true -> bs_followed (t :: tail) s = true -> bs_next ok s = true.
Proof.
  intros Ht. induction s as [|c s IH]; simpl; [done|].
  intros [Hc Hs]%andb_prop. rewrite (IH Hs), andb_true_r.
  destruct (N.eqb c BACKSLASH); [|done].
  destruct s as [|d s]; [done|]. simpl in Hc.
  apply andb_prop in Hc as [Hd _]. apply N.eqb_eq in Hd. by subst d.
Qed.

Lemma bs_next_escape_latex (content : str) :
  bs_next not_bei (escape_latex content) = true.
Proof.
  apply (bs_followed_next not_bei 116%N (lit "extbackslash{}")); [done|].
  exact (bs_followed_replace
           (fold_left (fun text '(c, r) => replace c r text)
                      (removelast latex_special_chars) content)).
Qed.

Lemma bs_next_split (s : str) :
  bs_next not_bei s = true -> forallb (bs_next not_bei) (split NL s) = true.
Proof.
  induction s as [|c s IH]; [done|]. intros Hs.
  simpl in Hs. apply andb_prop in Hs as [Hc Hs]. specialize (IH Hs).
  simpl. destruct (N.eqb c NL) eqn:Ec; [done|].
  pose proof (split_not_nil NL s) as Hne.
  destruct (split NL s) as [|f fs] eqn:Ef; [done|].
  simpl in IH. apply andb_prop in IH as [Hf Hfs].
  simpl. rewrite Hf, Hfs, !andb_true_r.
  destruct (N.eqb c BACKSLASH); [|done].
  destruct s as [|d s]; [done|].
  simpl in Ef. unfold not_bei in Hc. apply andb_prop in Hc as [Hc Hd].
  apply negb_true_iff in Hd. rewrite Hd in Ef.
  destruct (split NL s); injection Ef as <- _;
    unfold not_bei; by rewrite Hc, Hd.
Qed.

(** A piece of text of this kind is no [begin], no [end] and no item. *)
Lemma bs_next_plain (p : str) :
  bs_next not_bei p = true ->
  eqb p BEGIN_ITEMIZE = false /\ eqb p END_ITEMIZE = false
  /\ is_item p = false.
Proof.
  intros Hp. unfold eqb. rewrite !bool_decide_eq_false_2.
  - split; [done|]. split; [done|]. apply not_true_is_false.
    intros [post ->]%startswith_spec. by vm_compute in Hp.
  - intros ->. by vm_compute in Hp.
  - intros ->. by vm_compute in Hp.
Qed.

Lemma plain_pieces (ps : list str) (d : nat) :
  forallb (bs_next not_bei) ps = true ->
  items_inside ps d = true /\ list_depth ps d = Some d.
Proof.
  induction ps as [|p ps IH]; simpl; [done|].
  intros [Hp Hps]%andb_prop.
  destruct (bs_next_plain p Hp) as (-> & -> & ->). simpl. by apply IH.
Qed.

Lemma items_inside_app (a b : list str) (d d' : nat) :
  list_depth a d = Some d' ->
  items_inside (a ++ b) d = items_inside a d && items_inside b d'.
Proof.
  revert d. induction a as [|l a IH]; intros d; simpl.
  - by intros [= ->].
  - destruct (eqb l BEGIN_ITEMIZE); [apply IH|].
    destruct (eqb l END_ITEMIZE).
    + destruct d; [done|]. apply IH.
    + intros Hd. by rewrite (IH d Hd), andb_assoc.
Qed.

Lemma split_prefix (sep : char) (pre s : str) :
  Forall (fun c => c <> sep) pre ->
  split sep (pre ++ s)
  = match split sep s with
    | f :: fs => (pre ++ f) :: fs
    | [] => [pre]
    end.
Proof.
  induction 1 as [|c pre Hc Hpre IH]; simpl.
  - pose proof (split_not_nil sep s). by destruct (split sep s).
  - apply N.eqb_neq in Hc. rewrite Hc, IH.
    pose proof (split_not_nil sep s). by destruct (split sep s).
Qed.

(** The lines of an item with its escaped text, where a list is open. *)
Lemma item_pieces (content : str) (d : nat) :
  items_inside (split NL (lit "\item " ++ escape_latex content)) (S d) = true
  /\ list_depth (split NL (lit "\item " ++ escape_latex content)) (S d)
     = Some (S d).
Proof.
  rewrite split_prefix by (vm_compute; repeat constructor; discriminate).
  pose proof (bs_next_split _ (bs_next_escape_latex content)) as Hps.
  pose proof (split_not_nil NL (escape_latex content)) as Hne.
  destruct (split NL (escape_latex content)) as [|f fs]; [done|].
  simpl in Hps. apply andb_prop in Hps as [_ Hfs].
  destruct (plain_pieces fs (S d) Hfs) as [Hitems Hdepth].
  assert (eqb (lit "\item " ++ f) BEGIN_ITEMIZE = false) as Hb.
  { unfold eqb. apply bool_decide_eq_false_2. intros Heq.
    vm_compute in Heq. congruence. }
  assert (eqb (lit "\item " ++ f) END_ITEMIZE = false) as He.
  { unfold eqb. apply bool_decide_eq_false_2. intros Heq.
    vm_compute in Heq. congruence. }
  cbn [items_inside list_depth]. rewrite Hb, He, Hitems, Hdepth.
  by rewrite orb_true_r.
Qed.

Lemma items_ok_snoc (e : emitter) (l : str) (prim sub : bool) :
  emitter_ok e -> items_ok e ->
  items_inside (split NL l) (open_count e) = true ->
  items_ok (Emitter (latex_content e ++ [l]) prim sub).
Proof.
  unfold emitter_ok, items_ok. simpl. intros Hok Hitems Hl.
  by rewrite text_lines_snoc, (items_inside_app _ _ _ _ Hok), Hitems, Hl.
Qed.

Lemma items_ok_append (l : str) (e : emitter) :
  bs_next not_bei l = true -> emitter_ok e -> items_ok e ->
  items_ok (append l e).
Proof.
  intros Hl Hok Hitems. apply items_ok_snoc; [done..|].
  apply plain_pieces. by apply bs_next_split.
Qed.

Lemma items_ok_close_subitemize (e : emitter) :
  emitter_ok e -> items_ok e -> items_ok (close_subitemize e).
Proof.
  intros Hok Hitems. unfold close_subitemize.
  destruct (in_subitemize e); [|done]. by apply items_ok_snoc.
Qed.

Lemma items_ok_close_itemize (e : emitter) :
  emitter_ok e -> items_ok e -> items_ok (close_itemize e).
Proof.
  intros Hok Hitems. unfold close_itemize.
  destruct (in_itemize e); [|done]. by apply items_ok_snoc.
Qed.

Lemma items_ok_open_itemize (e : emitter) :
  emitter_ok e -> items_ok e ->
  items_ok (open_itemize e) /\ in_itemize (open_itemize e) = true.
Proof.
  intros Hok Hitems. unfold open_itemize.
  destruct (in_itemize e) eqn:E; simpl; [done|].
  split; [by apply items_ok_snoc|done].
Qed.

Lemma items_ok_open_subitemize (e : emitter) :
  emitter_ok e -> items_ok e ->
  items_ok (open_subitemize e) /\ in_subitemize (open_subitemize e) = true.
Proof.
  intros Hok Hitems. unfold open_subitemize.
  destruct (in_subitemize e) eqn:E; simpl; [done|].
  split; [by apply items_ok_snoc|done].
Qed.

Lemma items_ok_item (content : str) (e : emitter) :
  (1 <= open_count e)%nat -> emitter_ok e -> items_ok e ->
  items_ok (append (lit "\item " ++ escape_latex content) e).
Proof.
  intros Hopen Hok Hitems. apply items_ok_snoc; [done..|].
  destruct (open_count e) as [|d]; [lia|]. apply item_pieces.
Qed.

Lemma items_ok_close_both (e : emitter) :
  emitter_ok e -> items_ok e ->
  emitter_ok (close_itemize (close_subitemize e))
  /\ items_ok (close_itemize (close_subitemize e)).
Proof.
  intros Hok Hitems. split; [by apply emitter_ok_close_both|].
  apply items_ok_close_itemize.
  - by apply emitter_ok_close_subitemize.
  - by apply items_ok_close_subitemize.
Qed.

Lemma bs_next_wrap (before content after : str) :
  bs_next not_bei before = true -> bs_next not_bei after = true ->
  bs_next not_bei (before ++ escape_latex content ++ after) = true.
Proof.
  intros Hb Ha. apply bs_next_app; [done|].
  apply bs_next_app; [apply bs_next_escape_latex|done].
Qed.

Lemma items_ok_emit (e : emitter) (item : str * str) :
  emitter_ok e -> items_ok e -> items_ok (emit e item).
Proof.
  intros Hok Hitems. destruct item as [content_type content]. unfold emit.
  destruct (eqb content_type (lit "title")).
  { apply items_ok_append; [done| |].
    - apply emitter_ok_append; [done|]. apply emitter_ok_append; [|done].
      by apply bs_ok_wrap.
    - apply items_ok_append; [done| |].
      + apply emitter_ok_append; [|done]. by apply bs_ok_wrap.
      + apply items_ok_append; [|done..]. by apply bs_next_wrap. }
  destruct (eqb content_type (lit "section")).
  { destruct (items_ok_close_both e Hok Hitems) as [Hok' Hitems'].
    apply items_ok_append; [done| |].
    - apply emitter_ok_append; [|done]. by apply bs_ok_wrap.
    - apply items_ok_append; [|done..]. by apply bs_next_wrap. }
  destruct (eqb content_type (lit "subsection")).
  { destruct (items_ok_close_both e Hok Hitems) as [Hok' Hitems'].
    apply items_ok_append; [done| |].
    - apply emitter_ok_append; [|done]. by apply bs_ok_wrap.
    - apply items_ok_append; [|done..]. by apply bs_next_wrap. }
  destruct (eqb content_type (lit "bullet1")).
  { pose proof (emitter_ok_close_subitemize e Hok) as (Hok1 & _ & _).
    pose proof (items_ok_close_subitemize e Hok Hitems) as Hitems1.
    pose proof (emitter_ok_open_itemize _ Hok1) as Hok2.
    destruct (items_ok_open_itemize _ Hok1 Hitems1) as [Hitems2 Hopen].
    apply items_ok_item; [|done..].
    unfold open_count. rewrite Hopen. simpl. lia. }
  destruct (eqb content_type (lit "bullet2")).
  { pose proof (emitter_ok_open_subitemize _ Hok) as Hok2.
    destruct (items_ok_open_subitemize _ Hok Hitems) as [Hitems2 Hopen].
    apply items_ok_item; [|done..].
    unfold open_count. rewrite Hopen. simpl. lia. }
  destruct (eqb content_type (lit "paragraph")); [|done].
  destruct (items_ok_close_both e Hok Hitems) as [Hok' Hitems'].
  apply items_ok_append; [done| |].
  - apply emitter_ok_append; [|done]. apply bs_ok_escape_latex.
  - apply items_ok_append; [|done..]. apply bs_next_escape_latex.
Qed.

Lemma items_ok_emit_all (structured_content : list (str * str)) :
  items_ok (emit_all structured_content).
Proof.
  unfold emit_all.
  assert (emitter_ok (Emitter header false false)) as H0 by reflexivity.
  assert (items_ok (Emitter header false false)) as H1 by reflexivity.
  revert H0 H1. generalize (Emitter header false false).
  induction structured_content as [|item sc IH]; intros e Hok Hitems; [done|].
  simpl. apply IH; [by apply emitter_ok_emit|by apply items_ok_emit].
Qed.

(** X21: in the document, read line by line, a line that starts an item
    always stands inside an open list, whatever the sequence of blocks
    and whatever their text. *)
Theorem items_only_inside_lists (structured_content : list (str * str)) :
  items_inside (split NL (convert_to_latex structured_content)) 0 = true.
Proof.
  set (e := emit_all structured_content).
  pose proof (emitter_ok_emit_all structured_content) as Hok. fold e in Hok.
  pose proof (items_ok_emit_all structured_content) as Hitems.
  fold e in Hitems.
  pose proof (latex_content_emit_all_not_nil structured_content) as Hne.
  fold e in Hne.
  destruct (list_depth_closing e Hok) as [_ Hclosed].
  unfold convert_to_latex. rewrite convert_to_latex_lines_parts. fold e.
  rewrite split_join by (by intros [? _]%app_eq_nil).
  rewrite app_assoc. unfold text_lines in *.
  rewrite flat_map_app, (items_inside_app _ _ _ _ Hclosed).
  rewrite flat_map_app, (items_inside_app _ _ _ _ Hok), Hitems.
  unfold closing. by destruct (in_subitemize e), (in_itemize e).
Qed.

End ItemFacts.

Lemma no_pdf_written_is_an_error_witness :
  fs sample_world !! paper_tex = Some (File (lit "\documentclass{article}"))
  /\ fs sample_world !! (lit "/home/u/doc", lit "paper.pdf") = None
  /\ convert_to_pdf engine_silent (fun _ => true) pdflatex paper_tex None 3
                    sample_world
     = (sample_world,
        inl (Exception (lit
           "PDF file was not created, but no obvious errors were found"))).
Proof.
  split; [reflexivity|]. split; [reflexivity|].
  refine (no_pdf_written_is_an_error engine_silent (fun _ => true) pdflatex
            paper_tex (lit "/home/u/doc", lit "paper.pdf") None
            (lit "\documentclass{article}") 3 sample_world
            eq_refl eq_refl eq_refl eq_refl _).
  intros k d Hd. exists [], (<[lit "paper.log" := clean_log]> d).
  split; [reflexivity|].
  rewrite lookup_insert_ne; [exact Hd|discriminate].
Defined.

Lemma escape_latex_backslashes_witness :
  chr "&" <> chr "t"
  /\ contains (escape_latex (lit "R&D")) [BACKSLASH; chr "&"] = false.
Proof.
  assert (chr "&" <> chr "t") as Hc by discriminate.
  split; [exact Hc|].
  exact (proj2 (escape_latex_backslashes (lit "R&D")) (chr "&") Hc).
Defined.

Lemma check_latex_installation_engine_witness :
  (fun eng => eqb eng (lit "xelatex"))
    (engine (Converter (lit "xelatex") true false)) = true.
Proof.
  exact (proj1 (check_latex_installation_engine
                  (fun eng => eqb eng (lit "xelatex"))
                  (Converter (lit "pdflatex") true false))).
Defined.
